(** * The voice-agent speech services: VAD, ASR and TTS request handlers

    A shallow embedding of the three Flask applications under
    [python-services/]: the handlers of [vad-service/app.py],
    [asr-service/app.py] and [tts-service/app.py], together with the
    Python operations they are written with.  Handlers are programs in a
    small state-and-exception monad over the state their service owns
    (the table [vad_iterators], the files of the temporary directory). *)

From Stdlib Require Import ZArith QArith Ascii String List Lia.
From stdpp Require Import gmap strings list fin_maps.

Local Open Scope string_scope.
Local Open Scope Z_scope.
Local Open Scope list_scope.

(** ** Python values and exceptions *)

Module Py.

(** The values [request.get_json()] can return: [None], booleans,
    integers, strings, lists and dicts.  A dict is kept as its pairs in
    document order; [json.loads] keeps the last binding of a repeated
    name.  Numbers with a fraction are not modelled. *)
#[warnings="-register-all"]
Inductive pyval : Type :=
| PNone
| PBool (b : bool)
| PInt (n : Z)
| PStr (s : string)
| PList (l : list pyval)
| PDict (d : list (string * pyval)).

(** The exceptions the handlers can meet.  All of them are subclasses of
    [Exception]; [External] stands for whatever an outside collaborator
    (Flask's JSON parsing, the models, the file system) raises, with its
    message. *)
Inductive exn : Type :=
| TypeError
| AttributeError
| KeyError
| IndexError
| ValueError
| BinasciiError
| External (msg : string).

Definition result (A : Type) : Type := exn + A.

(** [d[k]] and [k in d] on a dict built by [json.loads]. *)
Fixpoint dict_lookup (k : string) (d : list (string * pyval)) : option pyval :=
  match d with
  | [] => None
  | (k', v) :: rest =>
      match dict_lookup k rest with
      | Some v' => Some v'
      | None => if String.eqb k k' then Some v else None
      end
  end.

Definition is_str (needle : string) (v : pyval) : bool :=
  match v with
  | PStr s => String.eqb s needle
  | _ => false
  end.

Definition is_substring (needle s : string) : bool :=
  match String.index 0 needle s with
  | Some _ => true
  | None => false
  end.

(** [needle in v], for a string [needle]: key membership on a dict,
    element membership on a list, substring test on a string, and
    [TypeError] on a value that is not iterable. *)
Definition contains (needle : string) (v : pyval) : result bool :=
  match v with
  | PDict d => inr (bool_decide (is_Some (dict_lookup needle d)))
  | PList l => inr (existsb (is_str needle) l)
  | PStr s => inr (is_substring needle s)
  | PNone | PBool _ | PInt _ => inl TypeError
  end.

(** [v[k]], for a string [k]: [KeyError] on a dict without the key,
    [TypeError] on every other value (list and string indices must be
    integers, the rest is not subscriptable). *)
Definition getitem (v : pyval) (k : string) : result pyval :=
  match v with
  | PDict d =>
      match dict_lookup k d with
      | Some x => inr x
      | None => inl KeyError
      end
  | _ => inl TypeError
  end.

(** [v.get(k, dflt)]: only a dict has the method. *)
Definition get (v : pyval) (k : string) (dflt : pyval) : result pyval :=
  match v with
  | PDict d => inr (default dflt (dict_lookup k d))
  | _ => inl AttributeError
  end.

(** Truth value of a Python object, as [or] and [not] use it. *)
Definition truthy (v : pyval) : bool :=
  match v with
  | PNone => false
  | PBool b => b
  | PInt n => negb (n =? 0)
  | PStr s => negb (String.eqb s "")
  | PList l => match l with [] => false | _ => true end
  | PDict d => match d with [] => false | _ => true end
  end.

(** [a or b] *)
Definition or_else (a b : pyval) : pyval := if truthy a then a else b.

(** ** The handler monad

    A computation reads and writes the state [W] of its service and
    either returns or raises.  A raised exception keeps the state
    reached so far: Python rolls nothing back. *)
Definition M (W A : Type) : Type := W -> result A * W.

Definition ret {W A} (a : A) : M W A := fun w => (inr a, w).

Definition raise {W A} (e : exn) : M W A := fun w => (inl e, w).

Definition bind {W A B} (m : M W A) (k : A -> M W B) : M W B :=
  fun w =>
    match m w with
    | (inr a, w') => k a w'
    | (inl e, w') => (inl e, w')
    end.

Definition lift {W A} (r : result A) : M W A := fun w => (r, w).

Definition gets {W A} (f : W -> A) : M W A := fun w => (inr (f w), w).

Definition modify {W} (f : W -> W) : M W unit := fun w => (inr tt, f w).

(** [try: body  except Exception as e: handler(e)] *)
Definition try_except {W A} (body : M W A) (handler : exn -> M W A) : M W A :=
  fun w =>
    match body w with
    | (inr a, w') => (inr a, w')
    | (inl e, w') => handler e w'
    end.

(** [try: body  except: pass] *)
Definition try_pass {W} (body : M W unit) : M W unit :=
  try_except body (fun _ => ret tt).

Declare Scope py_scope.
Delimit Scope py_scope with py.

Notation "x <- m ;; k" := (bind m (fun x => k))
  (at level 100, m at next level, right associativity) : py_scope.
Notation "m ;;; k" := (bind m (fun _ => k))
  (at level 100, right associativity) : py_scope.

(** ** [base64.b64decode]

    [binascii.a2b_base64] in its default, non-strict mode, as CPython
    implements it: characters outside the alphabet are skipped, a
    complete pad sequence ends the input, and input that stops in the
    middle of a quad is an error.  Bytes are integers in [0, 256). *)
Definition b64_value (c : ascii) : option Z :=
  let n := Z.of_N (N_of_ascii c) in
  if (65 <=? n) && (n <=? 90) then Some (n - 65)
  else if (97 <=? n) && (n <=? 122) then Some (n - 71)
  else if (48 <=? n) && (n <=? 57) then Some (n + 4)
  else if n =? 43 then Some 62
  else if n =? 47 then Some 63
  else None.

Definition BASE64_PAD : ascii := "="%char.

Definition store_byte (v : Z) : Z := Z.land v 255.

Fixpoint a2b_base64 (s : string) (quad_pos leftchar pads : Z) (bin_data : list Z)
  : result (list Z) :=
  match s with
  | EmptyString => if quad_pos =? 0 then inr bin_data else inl BinasciiError
  | String this_ch rest =>
      if Ascii.eqb this_ch BASE64_PAD then
        if (2 <=? quad_pos) && (4 <=? quad_pos + (pads + 1)) then inr bin_data
        else a2b_base64 rest quad_pos leftchar
               (if 2 <=? quad_pos then pads + 1 else pads) bin_data
      else
        match b64_value this_ch with
        | None => a2b_base64 rest quad_pos leftchar pads bin_data
        | Some v =>
            if quad_pos =? 0 then a2b_base64 rest 1 v 0 bin_data
            else if quad_pos =? 1 then
              a2b_base64 rest 2 (Z.land v 15) 0
                (bin_data ++ [store_byte (Z.lor (Z.shiftl leftchar 2) (Z.shiftr v 4))])
            else if quad_pos =? 2 then
              a2b_base64 rest 3 (Z.land v 3) 0
                (bin_data ++ [store_byte (Z.lor (Z.shiftl leftchar 4) (Z.shiftr v 2))])
            else
              a2b_base64 rest 0 0 0
                (bin_data ++ [store_byte (Z.lor (Z.shiftl leftchar 6) v)])
        end
  end.

Fixpoint is_ascii (s : string) : bool :=
  match s with
  | EmptyString => true
  | String c rest => (N_of_ascii c <? 128)%N && is_ascii rest
  end.

(** [base64.b64decode(v)]: a string must be ASCII ([ValueError]
    otherwise); a value that is neither a string nor bytes-like is a
    [TypeError]. *)
Definition b64decode (v : pyval) : result (list Z) :=
  match v with
  | PStr s => if is_ascii s then a2b_base64 s 0 0 0 [] else inl ValueError
  | _ => inl TypeError
  end.

Definition is_byte (b : Z) : Prop := 0 <= b < 256.

(** ** [numpy.frombuffer(b, dtype=numpy.int16)]

    Two bytes per sample, least significant first, read as a signed
    16-bit integer; a buffer of odd length is a [ValueError]. *)
Definition int16_of_bytes (lo hi : Z) : Z :=
  let u := Z.lor lo (Z.shiftl hi 8) in
  if u <? 32768 then u else u - 65536.

Fixpoint frombuffer_int16 (b : list Z) : result (list Z) :=
  match b with
  | [] => inr []
  | [_] => inl ValueError
  | lo :: hi :: rest =>
      match frombuffer_int16 rest with
      | inr samples => inr (int16_of_bytes lo hi :: samples)
      | inl e => inl e
      end
  end.

(** ** Dictionary keys

    A dict key is a hashable value.  [True] and [1] (and [False] and
    [0]) are equal and hash alike, so they are one key; lists and dicts
    are unhashable and looking them up is a [TypeError]. *)
Inductive key : Type :=
| KNone
| KInt (n : Z)
| KStr (s : string).

#[global] Instance key_eq_dec : EqDecision key.
Proof. solve_decision. Defined.

#[global] Instance key_countable : Countable key.
Proof.
  refine (inj_countable'
    (fun k => match k with
              | KNone => inl tt
              | KInt n => inr (inl n)
              | KStr s => inr (inr s)
              end)
    (fun x => match x with
              | inl _ => KNone
              | inr (inl n) => KInt n
              | inr (inr s) => KStr s
              end) _).
  intros k. destruct k; reflexivity.
Defined.

Definition hash_key (v : pyval) : result key :=
  match v with
  | PNone => inr KNone
  | PBool b => inr (KInt (Z.b2z b))
  | PInt n => inr (KInt n)
  | PStr s => inr (KStr s)
  | PList _ | PDict _ => inl TypeError
  end.

(** ** Flask responses

    [jsonify(d)] with an optional status code, or a file sent as the
    body.  A field of the dict is a value or [JExn e], the string
    [str(e)] of a caught exception. *)
Inductive jvalue : Type :=
| JVal (v : pyval)
| JExn (e : exn).

Inductive Body : Type :=
| jsonify (fields : list (string * jvalue))
| send_file (path : string).

Record Response : Type := respond { body : Body; code : Z }.

(** The response every handler builds in its [except Exception as e]
    clause: [jsonify({"error": str(e)}), 500]. *)
Definition error_response (e : exn) : Response :=
  respond (jsonify [("error", JExn e)]) 500.


(** ** Files

    The file system is the set of paths that exist.  [os.remove] raises
    when the path does not exist, or when the system refuses
    ([refused] is then the exception). *)
Definition path_join (dir name : string) : string := dir ++ "/" ++ name.

Definition os_remove (refused : option exn) (path : string) : M (gset string) unit :=
  fun fs =>
    if decide (path ∈ fs) then
      match refused with
      | Some e => (inl e, fs)
      | None => (inr tt, fs ∖ {[path]})
      end
    else (inl (External "FileNotFoundError"), fs).

(** Writing a file: [failed] is the exception of a write that fails;
    the path then does not come to exist. *)
Definition write_file (failed : option exn) (path : string) : M (gset string) unit :=
  fun fs =>
    match failed with
    | Some e => (inl e, fs)
    | None => (inr tt, {[path]} ∪ fs)
    end.

(** ** [str.strip]

    A string is held as its UTF-8 encoding; [utf8_chars] cuts it into
    its characters, by the length the lead byte announces, and
    [code_point] reads the code point of one character. *)
Definition utf8_length (lead : ascii) : nat :=
  let n := N_of_ascii lead in
  if (n <? 192)%N then 1%nat
  else if (n <? 224)%N then 2%nat
  else if (n <? 240)%N then 3%nat
  else if (n <? 248)%N then 4%nat
  else 1%nat.

Fixpoint utf8_chars (l : list ascii) : list (list ascii) :=
  match l with
  | [] => []
  | a :: rest =>
      match utf8_length a, rest with
      | 2%nat, b :: rest2 => [a; b] :: utf8_chars rest2
      | 3%nat, b :: c :: rest3 => [a; b; c] :: utf8_chars rest3
      | 4%nat, b :: c :: d :: rest4 => [a; b; c; d] :: utf8_chars rest4
      | _, _ => [a] :: utf8_chars rest
      end
  end.

Definition continuation (b : ascii) : N := N.land (N_of_ascii b) 63.

Definition code_point (char : list ascii) : N :=
  match char with
  | [a; b] =>
      N.lor (N.shiftl (N.land (N_of_ascii a) 31) 6) (continuation b)
  | [a; b; c] =>
      N.lor (N.shiftl (N.land (N_of_ascii a) 15) 12)
            (N.lor (N.shiftl (continuation b) 6) (continuation c))
  | [a; b; c; d] =>
      N.lor (N.shiftl (N.land (N_of_ascii a) 7) 18)
            (N.lor (N.shiftl (continuation b) 12)
                   (N.lor (N.shiftl (continuation c) 6) (continuation d)))
  | a :: _ => N_of_ascii a
  | [] => 0%N
  end.

(** The characters [str.strip] removes, those for which [str.isspace]
    holds: U+0009 to U+000D, U+001C to U+0020, U+0085, U+00A0, U+1680,
    U+2000 to U+200A, U+2028, U+2029, U+202F, U+205F and U+3000. *)
Definition is_space (cp : N) : bool :=
  ((9 <=? cp) && (cp <=? 13) || (28 <=? cp) && (cp <=? 32)
   || (cp =? 133) || (cp =? 160) || (cp =? 5760)
   || (8192 <=? cp) && (cp <=? 8202)
   || (cp =? 8232) || (cp =? 8233) || (cp =? 8239) || (cp =? 8287)
   || (cp =? 12288))%N.

Definition is_space_char (char : list ascii) : bool := is_space (code_point char).

Fixpoint lstrip (chars : list (list ascii)) : list (list ascii) :=
  match chars with
  | c :: rest => if is_space_char c then lstrip rest else chars
  | [] => []
  end.

(** [s.strip()]: leading and trailing whitespace characters removed. *)
Definition strip (s : string) : string :=
  string_of_list_ascii
    (concat (rev (lstrip (rev (lstrip (utf8_chars (list_ascii_of_string s))))))).

(** [v.strip()]: only a string has the method. *)
Definition str_strip (v : pyval) : result string :=
  match v with
  | PStr s => inr (strip s)
  | _ => inl AttributeError
  end.

(** A string of whitespace only, the strings [strip] empties. *)
Definition is_blank (s : string) : bool :=
  forallb is_space_char (utf8_chars (list_ascii_of_string s)).

(** The characters [a2b_base64] looks at: the alphabet and the pad. *)
Definition is_base64_char (c : ascii) : bool :=
  Ascii.eqb c BASE64_PAD || bool_decide (is_Some (b64_value c)).

(** Bytes written before the quad position [q] of a quad. *)
Definition quad_bytes (q : Z) : Z := if q <=? 1 then 0 else q - 1.

(** A string of characters of the alphabet only, without pad. *)
Definition is_alphabet (s : string) : bool :=
  forallb (fun c => bool_decide (is_Some (b64_value c))) (list_ascii_of_string s).

Fixpoint keep_base64 (s : string) : string :=
  match s with
  | EmptyString => EmptyString
  | String c rest =>
      if is_base64_char c then String c (keep_base64 rest) else keep_base64 rest
  end.

(** [l[0]] on a list *)
Definition first_item (l : list pyval) : result pyval :=
  match l with
  | x :: _ => inr x
  | [] => inl IndexError
  end.

End Py.

Import Py.
Local Open Scope py_scope.

(** * The VAD service: [vad-service/app.py] *)

Module VadService.

Definition SAMPLING_RATE : Z := 16000.
Definition THRESHOLD : Q := 1 # 2.
Definition MIN_SILENCE_DURATION_MS : Z := 500.

(** ** The session object *)

Inductive Phase : Type := SILENCE | SPEECH.

Record Session : Type := mkSession {
  threshold : Q;
  sampling_rate : Z;
  min_silence_duration : Z;
  phase : Phase;
  silence_run_length : Z;
  sample_cursor : Z
}.

(** What a call of the iterator returns besides [None]: the dict
    [{'start': t}] or [{'end': t}]. *)
Inductive Event : Type :=
| EvStart (timestamp : Z)
| EvEnd (timestamp : Z).

(** Modelled from the spec: the class [VADIterator] of the package
    [silero_vad], which [app.py] imports and whose source is not part
    of the repository: its constructor, [reset_states] and [__call__].
    The constructor stores the configuration and starts in SILENCE with
    an empty silence run and the cursor at zero. *)
Definition VADIterator (threshold : Q) (sampling_rate min_silence_duration_ms : Z)
  : Session :=
  {| threshold := threshold;
     sampling_rate := sampling_rate;
     min_silence_duration := min_silence_duration_ms;
     phase := SILENCE;
     silence_run_length := 0;
     sample_cursor := 0 |}.

(** Modelled from the spec: [VADIterator.reset_states], "clears the
    named session back to its initial state (phase = SILENCE,
    silence_run_length = 0, cursor = 0) without deleting its configured
    thresholds". *)
Definition reset_states (s : Session) : Session :=
  {| threshold := threshold s;
     sampling_rate := sampling_rate s;
     min_silence_duration := min_silence_duration s;
     phase := SILENCE;
     silence_run_length := 0;
     sample_cursor := 0 |}.

(** A sample position reported in milliseconds at the session's rate. *)
Definition timestamp_of (s : Session) (samples : Z) : Z :=
  samples * 1000 / sampling_rate s.

(** The silence run, counted in samples, has lasted the minimum
    duration, given in milliseconds. *)
Definition silence_reached (s : Session) (run : Z) : bool :=
  min_silence_duration s * sampling_rate s <=? run * 1000.

Definition update (s : Session) (ph : Phase) (run cursor : Z) : Session :=
  {| threshold := threshold s;
     sampling_rate := sampling_rate s;
     min_silence_duration := min_silence_duration s;
     phase := ph;
     silence_run_length := run;
     sample_cursor := cursor |}.

(** Modelled from the spec: the hysteresis rule of [process], the body
    of [VADIterator.__call__] once the probability [prob] of a chunk of
    [n] samples is known.  A start event carries the cursor before the
    chunk; an end event carries the position at which the silence run
    began; the cursor then advances by [n]. *)
Definition hysteresis (s : Session) (prob : Q) (n : Z) : Session * option Event :=
  let cursor := sample_cursor s in
  match phase s, Qle_bool (threshold s) prob with
  | SILENCE, true =>
      (update s SPEECH 0 (cursor + n), Some (EvStart (timestamp_of s cursor)))
  | SILENCE, false =>
      (update s SILENCE (silence_run_length s) (cursor + n), None)
  | SPEECH, true =>
      (update s SPEECH 0 (cursor + n), None)
  | SPEECH, false =>
      let run := silence_run_length s + n in
      if silence_reached s run then
        (update s SILENCE run (cursor + n),
         Some (EvEnd (timestamp_of s (cursor + n - run))))
      else
        (update s SPEECH run (cursor + n), None)
  end.

(** ** The state of the service

    [vad_iterators] is the module-level dict.  [scorer_calls] records
    every chunk handed to the frame-level scorer, in order; the program
    never reads it. *)
Record World : Type := mkWorld {
  vad_iterators : gmap key Session;
  scorer_calls : list (list Q)
}.

Definition set_iterators (f : gmap key Session -> gmap key Session) (w : World)
  : World :=
  {| vad_iterators := f (vad_iterators w); scorer_calls := scorer_calls w |}.

(** The frame-level scorer [vad_model]: the speech probability of a
    chunk, or the exception it raises. *)
Definition Scorer : Type := list Q -> result Q.

Definition invoke_scorer (vad_model : Scorer) (x : list Q) : M World Q :=
  fun w =>
    (vad_model x,
     {| vad_iterators := vad_iterators w; scorer_calls := scorer_calls w ++ [x] |}).

(** Modelled from the spec: [VADIterator.__call__], the operation
    [process] on the session stored under [it].  An empty chunk fails
    with InvalidAudioError; the scorer is asked first and its failure
    is propagated; only then is the session mutated, in place. *)
Definition call_iterator (vad_model : Scorer) (it : key) (x : list Q)
  : M World (option Event) :=
  match x with
  | [] => raise (External "InvalidAudioError")
  | _ =>
      prob <- invoke_scorer vad_model x ;;
      tbl <- gets vad_iterators ;;
      match tbl !! it with
      | None => raise KeyError
      | Some s =>
          let '(s', out) := hysteresis s prob (Z.of_nat (length x)) in
          modify (set_iterators <[it := s']>) ;;;
          ret out
      end
  end.

(** ** The code of [app.py] *)

(** [get_vad_iterator]: the session object is returned by reference;
    entries of [vad_iterators] are never replaced or removed, so the
    reference is the key it is stored under. *)
Definition get_vad_iterator (session_id : pyval) : M World key :=
  k <- lift (hash_key session_id) ;;
  tbl <- gets vad_iterators ;;
  (if decide (tbl !! k = None)
   then modify (set_iterators
                  <[k := VADIterator THRESHOLD SAMPLING_RATE MIN_SILENCE_DURATION_MS]>)
   else ret tt) ;;;
  ret k.

(** [int2float]: an int16 sample and its quotient by 2^15 are exact
    in binary32 (lemma [int2float_exact] below), so the float32 division
    is the division of rationals. *)
Definition int2float (sound : list Z) : list Q :=
  map (fun sample => (inject_Z sample / 32768)%Q) sound.

Definition vad_detect (vad_model : Scorer) (get_json : result pyval)
  : M World Response :=
  try_except
    (data <- lift get_json ;;
     has_audio <- lift (contains "audio_data" data) ;;
     if negb has_audio then
       ret (respond (jsonify [("error", JVal (PStr "缺少audio_data字段"))]) 400)
     else
       field <- lift (getitem data "audio_data") ;;
       audio_bytes <- lift (b64decode field) ;;
       audio_int16 <- lift (frombuffer_int16 audio_bytes) ;;
       let audio_float32 := int2float audio_int16 in
       session_id <- lift (get data "session_id" (PStr "default")) ;;
       vad_iterator <- get_vad_iterator session_id ;;
       vad_output <- call_iterator vad_model vad_iterator audio_float32 ;;
       match vad_output with
       | Some (EvStart t) =>
           ret (respond (jsonify [("status", JVal (PStr "start")); ("timestamp", JVal (PInt t))]) 200)
       | Some (EvEnd t) =>
           ret (respond (jsonify [("status", JVal (PStr "end")); ("timestamp", JVal (PInt t))]) 200)
       | None =>
           ret (respond (jsonify [("status", JVal PNone)]) 200)
       end)
    (fun e => ret (error_response e)).

Definition reset_vad (get_json : result pyval) : M World Response :=
  try_except
    (data0 <- lift get_json ;;
     let data := or_else data0 (PDict []) in
     session_id <- lift (get data "session_id" (PStr "default")) ;;
     k <- lift (hash_key session_id) ;;
     tbl <- gets vad_iterators ;;
     (match tbl !! k with
      | Some s => modify (set_iterators <[k := reset_states s]>)
      | None => ret tt
      end) ;;;
     ret (respond (jsonify [("status", JVal (PStr "reset"))]) 200))
    (fun e => ret (error_response e)).

(** ** Runs of the service *)

(** The state the module is loaded with. *)
Definition initial : World := {| vad_iterators := ∅; scorer_calls := [] |}.

(** One request to a POST route, with the outcome of
    [request.get_json()] and, for [/vad], the scorer it meets. *)
Inductive Call : Type :=
| PostVad (vad_model : Scorer) (get_json : result pyval)
| PostReset (get_json : result pyval).

Definition serve (c : Call) : M World Response :=
  match c with
  | PostVad vad_model get_json => vad_detect vad_model get_json
  | PostReset get_json => reset_vad get_json
  end.

Inductive reachable : World -> Prop :=
| reachable_initial : reachable initial
| reachable_serve (c : Call) (w : World) :
    reachable w -> reachable (snd (serve c w)).

(** The session and the chunk a [/vad] request addresses: the values
    [vad_detect] has computed when it calls [get_vad_iterator], if it
    gets that far and the session id is hashable. *)
Definition addressed (get_json : result pyval) : option (key * list Q) :=
  match get_json with
  | inr data =>
      match contains "audio_data" data, getitem data "audio_data" with
      | inr true, inr field =>
          match b64decode field with
          | inr audio_bytes =>
              match frombuffer_int16 audio_bytes,
                    get data "session_id" (PStr "default") with
              | inr audio_int16, inr session_id =>
                  match hash_key session_id with
                  | inr k => Some (k, int2float audio_int16)
                  | inl _ => None
                  end
              | _, _ => None
              end
          | inl _ => None
          end
      | _, _ => None
      end
  | inl _ => None
  end.

(** The samples of an [audio_data] field: [base64.b64decode] followed
    by [numpy.frombuffer], as [vad_detect] chains them. *)
Definition decode_audio (field : pyval) : result (list Z) :=
  match b64decode field with
  | inr audio_bytes => frombuffer_int16 audio_bytes
  | inl e => inl e
  end.

(** The session a [/reset] request addresses. *)
Definition reset_addressed (get_json : result pyval) : option key :=
  match get_json with
  | inr data0 =>
      match get (or_else data0 (PDict [])) "session_id" (PStr "default") with
      | inr session_id =>
          match hash_key session_id with
          | inr k => Some k
          | inl _ => None
          end
      | inl _ => None
      end
  | inl _ => None
  end.

(** The non-null ["status"] of a response, if it has one. *)
Definition status_of (r : result Response) : list string :=
  match r with
  | inr {| body := jsonify (("status", JVal (PStr s)) :: _) |} => [s]
  | _ => []
  end.

(** The events session [k] emits over a sequence of [/vad] requests. *)
Fixpoint session_events (k : key) (calls : list (Scorer * result pyval)) (w : World)
  : list string :=
  match calls with
  | [] => []
  | (vad_model, get_json) :: rest =>
      let out := vad_detect vad_model get_json w in
      (if decide (fst <$> addressed get_json = Some k) then status_of (fst out) else [])
        ++ session_events k rest (snd out)
  end.

(** Strict alternation of start and end, from the phase a session is in. *)
Fixpoint alternates (ph : Phase) (events : list string) : Prop :=
  match events with
  | [] => True
  | e :: rest =>
      match ph with
      | SILENCE => e = "start" /\ alternates SPEECH rest
      | SPEECH => e = "end" /\ alternates SILENCE rest
      end
  end.

(** The phase, silence run and cursor of the session of [k]; an id
    without a session is where a fresh session starts. *)
Definition session_state (w : World) (k : key) : Phase * Z * Z :=
  match vad_iterators w !! k with
  | Some s => (phase s, silence_run_length s, sample_cursor s)
  | None => (SILENCE, 0, 0)
  end.

(** The session a request will work on: the stored one, or a fresh one
    with the configuration of the module. *)
Definition session_for (w : World) (k : key) : Session :=
  default (VADIterator THRESHOLD SAMPLING_RATE MIN_SILENCE_DURATION_MS)
          (vad_iterators w !! k).

(** Two states in which every id has the same session to work on. *)
Definition same_sessions (w1 w2 : World) : Prop :=
  forall k, session_for w1 k = session_for w2 k.

(** The responses to a sequence of requests. *)
Fixpoint responses (calls : list Call) (w : World) : list (result Response) :=
  match calls with
  | [] => []
  | c :: rest => fst (serve c w) :: responses rest (snd (serve c w))
  end.

(** The response [vad_detect] builds from what the iterator returned. *)
Definition event_response (out : option Event) : Response :=
  match out with
  | Some (EvStart t) =>
      respond (jsonify [("status", JVal (PStr "start")); ("timestamp", JVal (PInt t))]) 200
  | Some (EvEnd t) =>
      respond (jsonify [("status", JVal (PStr "end")); ("timestamp", JVal (PInt t))]) 200
  | None => respond (jsonify [("status", JVal PNone)]) 200
  end.

Definition default_config (s : Session) : Prop :=
  threshold s = THRESHOLD /\
  sampling_rate s = SAMPLING_RATE /\
  min_silence_duration s = MIN_SILENCE_DURATION_MS.

(** A rational a binary32 float holds exactly. *)
Definition binary32 (q : Q) : Prop :=
  exists m e : Z, Z.abs m < 2 ^ 24 /\ -149 <= e <= 104 /\
    (q == inject_Z m * Qpower 2 e)%Q.

Definition is_int16 (n : Z) : Prop := -32768 <= n <= 32767.

(** [health] *)
Definition health : Response :=
  respond (jsonify [("status", JVal (PStr "healthy")); ("service", JVal (PStr "vad"))]) 200.

(** The session a request addresses, if it addresses one. *)
Definition call_key (c : Call) : option key :=
  match c with
  | PostVad _ get_json => fst <$> addressed get_json
  | PostReset get_json => reset_addressed get_json
  end.

(** The [/vad] requests that address session [k]. *)
Definition addresses (k : key) (call : Scorer * result pyval) : bool :=
  bool_decide (fst <$> addressed (snd call) = Some k).

(** The state with the session of [k] forgotten. *)
Definition forget (k : key) (w : World) : World :=
  {| vad_iterators := delete k (vad_iterators w); scorer_calls := scorer_calls w |}.

Definition is_post_vad (c : Call) : bool :=
  match c with
  | PostVad _ _ => true
  | PostReset _ => false
  end.

(** The state after a sequence of requests. *)
Fixpoint run (calls : list Call) (w : World) : World :=
  match calls with
  | [] => w
  | c :: rest => run rest (snd (serve c w))
  end.

(** The 400 response of [vad_detect]. *)
Definition missing_audio_data : Response :=
  respond (jsonify [("error", JVal (PStr "缺少audio_data字段"))]) 400.

(** ** Sample requests *)

(** A request with three samples of silence as audio. *)
Definition three_samples : result pyval :=
  inr (PDict [("audio_data", PStr "AAAAAAAA")]).

Definition speech_scorer : Scorer := fun _ => inr (8 # 10)%Q.

Definition failing_scorer : Scorer := fun _ => inl (External "scorer failure").

End VadService.

(** * The ASR service: [asr-service/app.py] *)

Module AsrService.

(** An uploaded file of [request.files]. *)
Record FileStorage : Type := { filename : string }.

(** What the request meets outside the handler: the temporary
    directory, the name [uuid.uuid4().hex] draws, whether [file.save]
    and [os.remove] fail, and the two calls into the model library. *)
Record Env : Type := {
  gettempdir : string;
  uuid4_hex : string;
  save_fails : option exn;
  generate : string -> result (list pyval);
  rich_transcription_postprocess : pyval -> result string;
  remove_refused : option exn
}.

(** [request.files[name]]: the first file of that field name. *)
Fixpoint files_lookup (name : string) (files : list (string * FileStorage))
  : option FileStorage :=
  match files with
  | [] => None
  | (n, f) :: rest => if String.eqb n name then Some f else files_lookup name rest
  end.

Definition temp_path (env : Env) : string :=
  path_join (gettempdir env) ("asr_" ++ uuid4_hex env ++ ".wav").

(** [request_files] is the outcome of reading [request.files], which
    parses the multipart body and may raise. *)
Definition recognize (env : Env) (request_files : result (list (string * FileStorage)))
  : M (gset string) Response :=
  try_except
    (files <- lift request_files ;;
     match files_lookup "file" files with
     | None => ret (respond (jsonify [("error", JVal (PStr "没有上传文件"))]) 400)
     | Some file =>
         if String.eqb (filename file) "" then
           ret (respond (jsonify [("error", JVal (PStr "文件名为空"))]) 400)
         else
           let temp_file := temp_path env in
           write_file (save_fails env) temp_file ;;;
           res <- lift (generate env temp_file) ;;
           res0 <- lift (first_item res) ;;
           raw <- lift (getitem res0 "text") ;;
           text <- lift (rich_transcription_postprocess env raw) ;;
           try_pass (os_remove (remove_refused env) temp_file) ;;;
           language <- lift (get res0 "language" (PStr "unknown")) ;;
           ret (respond (jsonify [("text", JVal (PStr text));
                                  ("language", JVal language)]) 200)
     end)
    (fun e => ret (error_response e)).

(** [health] *)
Definition health : Response :=
  respond (jsonify [("status", JVal (PStr "healthy")); ("service", JVal (PStr "asr"))]) 200.

End AsrService.

(** * The TTS service: [tts-service/app.py] *)

Module TtsService.

(** What the request meets outside the handler: the default voice read
    from the environment, the temporary directory, the drawn file name,
    and whether the synthesis call fails for a text and a voice. *)
Record Env : Type := {
  DEFAULT_VOICE : string;
  gettempdir : string;
  uuid4_hex : string;
  communicate_fails : pyval -> pyval -> option exn;
  remove_refused : option exn
}.

(** [generate_tts], run to completion on the request's own event loop. *)
Definition generate_tts (env : Env) (text voice : pyval) : M (gset string) string :=
  let output_file := path_join (gettempdir env) ("tts_" ++ uuid4_hex env ++ ".wav") in
  write_file (communicate_fails env text voice) output_file ;;;
  ret output_file.

(** [flask.send_file]: the file must exist. *)
Definition flask_send_file (path : string) : M (gset string) Body :=
  fun fs =>
    if decide (path ∈ fs) then (inr (send_file path), fs)
    else (inl (External "FileNotFoundError"), fs).

(** The closure [cleanup] the handler registers with
    [response.call_on_close]; the server runs it once the body is sent. *)
Definition cleanup (env : Env) (audio_file : string) : M (gset string) unit :=
  try_pass (os_remove (remove_refused env) audio_file).

Definition text_to_speech (env : Env) (get_json : result pyval)
  : M (gset string) Response :=
  try_except
    (data <- lift get_json ;;
     has_text <- lift (contains "text" data) ;;
     if negb has_text then
       ret (respond (jsonify [("error", JVal (PStr "缺少text字段"))]) 400)
     else
       text <- lift (getitem data "text") ;;
       voice <- lift (get data "voice" (PStr (DEFAULT_VOICE env))) ;;
       stripped <- lift (str_strip text) ;;
       if negb (truthy (PStr stripped)) then
         ret (respond (jsonify [("error", JVal (PStr "文本为空"))]) 400)
       else
         audio_file <- generate_tts env text voice ;;
         response <- flask_send_file audio_file ;;
         ret (respond response 200))
    (fun e => ret (error_response e)).

(** [health] *)
Definition health : Response :=
  respond (jsonify [("status", JVal (PStr "healthy")); ("service", JVal (PStr "tts"))]) 200.

(** The path [generate_tts] writes to. *)
Definition output_path (env : Env) : string :=
  path_join (gettempdir env) ("tts_" ++ uuid4_hex env ++ ".wav").

End TtsService.

(** * Properties of the VAD service *)

Import VadService.

Ltac unfold_monad :=
  unfold try_pass in *;
  unfold try_except, bind, lift, gets, modify, ret, raise in *.

Section VadRequests.

Variable vad_model : Scorer.

Lemma addressed_inv get_json k x :
  addressed get_json = Some (k, x) ->
  exists data field audio_bytes audio_int16 session_id,
    get_json = inr data /\
    contains "audio_data" data = inr true /\
    getitem data "audio_data" = inr field /\
    b64decode field = inr audio_bytes /\
    frombuffer_int16 audio_bytes = inr audio_int16 /\
    get data "session_id" (PStr "default") = inr session_id /\
    hash_key session_id = inr k /\
    x = int2float audio_int16.
Proof.
  unfold addressed. intros H.
  destruct get_json as [e|data]; [discriminate|].
  destruct (contains "audio_data" data) as [e|[|]] eqn:Hc; try discriminate.
  destruct (getitem data "audio_data") as [e|field] eqn:Hg; [discriminate|].
  destruct (b64decode field) as [e|audio_bytes] eqn:Hb; [discriminate|].
  destruct (frombuffer_int16 audio_bytes) as [e|audio_int16] eqn:Hf; [discriminate|].
  destruct (get data "session_id" (PStr "default")) as [e|session_id] eqn:Hs;
    [discriminate|].
  destruct (hash_key session_id) as [e|k'] eqn:Hk; [discriminate|].
  injection H as <- <-. eauto 15.
Qed.

(** A request that addresses no session leaves the state alone and is
    answered 400 or 500. *)
Lemma vad_detect_unaddressed get_json w :
  addressed get_json = None ->
  snd (vad_detect vad_model get_json w) = w /\
  exists r, fst (vad_detect vad_model get_json w) = inr r /\
            (code r = 400 \/ code r = 500).
Proof.
  unfold addressed, vad_detect, get_vad_iterator. unfold_monad. intros H.
  destruct get_json as [e|data]; simpl; [eauto|].
  destruct (contains "audio_data" data) as [e|[|]]; simpl; [eauto| |eauto].
  destruct (getitem data "audio_data") as [e|field]; simpl; [eauto|].
  destruct (b64decode field) as [e|audio_bytes]; simpl; [eauto|].
  destruct (frombuffer_int16 audio_bytes) as [e|audio_int16]; simpl; [eauto|].
  destruct (get data "session_id" (PStr "default")) as [e|session_id]; simpl; [eauto|].
  destruct (hash_key session_id) as [e|k']; simpl; [eauto|discriminate].
Qed.

Lemma insert_session_for w k :
  (if decide (vad_iterators w !! k = None)
   then <[k := VADIterator THRESHOLD SAMPLING_RATE MIN_SILENCE_DURATION_MS]>
          (vad_iterators w)
   else vad_iterators w) = <[k := session_for w k]> (vad_iterators w).
Proof.
  unfold session_for. case_decide as Hk.
  - rewrite Hk. reflexivity.
  - destruct (vad_iterators w !! k) as [s|] eqn:Hs; [|done].
    simpl. symmetry. by apply insert_id.
Qed.

(** An addressed request with an empty chunk: the session exists
    afterwards, the scorer was not asked. *)
Lemma vad_detect_empty_chunk get_json w k :
  addressed get_json = Some (k, []) ->
  vad_detect vad_model get_json w =
    (inr (error_response (External "InvalidAudioError")),
     set_iterators <[k := session_for w k]> w).
Proof.
  intros H. apply addressed_inv in H
    as (data & field & audio_bytes & audio_int16 & session_id &
        -> & Hc & Hg & Hb & Hf & Hs & Hk & Hx).
  unfold vad_detect, get_vad_iterator, call_iterator. unfold_monad.
  rewrite Hc; simpl. rewrite Hg, Hb, Hf, Hs, Hk; simpl.
  rewrite <- Hx. unfold set_iterators. rewrite <- insert_session_for.
  destruct w as [tbl calls]; simpl.
  case_decide; reflexivity.
Qed.

(** An addressed request whose scorer raises. *)
Lemma vad_detect_scorer_raises get_json w k x e :
  addressed get_json = Some (k, x) -> x <> [] -> vad_model x = inl e ->
  vad_detect vad_model get_json w =
    (inr (error_response e),
     {| vad_iterators := <[k := session_for w k]> (vad_iterators w);
        scorer_calls := scorer_calls w ++ [x] |}).
Proof.
  intros H Hne Hm. apply addressed_inv in H
    as (data & field & audio_bytes & audio_int16 & session_id &
        -> & Hc & Hg & Hb & Hf & Hs & Hk & Hx).
  unfold vad_detect, get_vad_iterator, call_iterator, invoke_scorer. unfold_monad.
  rewrite Hc; simpl. rewrite Hg, Hb, Hf, Hs, Hk; simpl.
  rewrite <- Hx. rewrite <- insert_session_for.
  destruct w as [tbl calls]; simpl.
  destruct x as [|q x']; [done|].
  case_decide; simpl; rewrite Hm; reflexivity.
Qed.

(** An addressed request whose scorer answers: the session takes one
    step of the hysteresis rule. *)
Lemma vad_detect_scored get_json w k x prob :
  addressed get_json = Some (k, x) -> x <> [] -> vad_model x = inr prob ->
  vad_detect vad_model get_json w =
    (inr (event_response (snd (hysteresis (session_for w k) prob (Z.of_nat (length x))))),
     {| vad_iterators :=
          <[k := fst (hysteresis (session_for w k) prob (Z.of_nat (length x)))]>
            (vad_iterators w);
        scorer_calls := scorer_calls w ++ [x] |}).
Proof.
  intros H Hne Hm. apply addressed_inv in H
    as (data & field & audio_bytes & audio_int16 & session_id &
        -> & Hc & Hg & Hb & Hf & Hs & Hk & Hx).
  unfold vad_detect, get_vad_iterator, call_iterator, invoke_scorer. unfold_monad.
  rewrite Hc; simpl. rewrite Hg, Hb, Hf, Hs, Hk; simpl.
  rewrite <- Hx. unfold session_for.
  destruct w as [tbl calls]; simpl.
  destruct x as [|q x']; [done|].
  case_decide as Hnone; simpl; rewrite Hm; simpl.
  - rewrite Hnone. simpl. rewrite lookup_insert_eq.
    destruct (hysteresis _ prob _) as [s' out] eqn:Hh. simpl.
    unfold set_iterators; simpl. rewrite insert_insert_eq.
    destruct out as [[t|t]|]; reflexivity.
  - destruct (tbl !! k) as [s|] eqn:Hlook; [|done]. simpl.
    destruct (hysteresis s prob _) as [s' out] eqn:Hh. simpl.
    destruct out as [[t|t]|]; reflexivity.
Qed.

End VadRequests.

(** ** Alternation of the emitted events *)

Lemma status_of_error e : status_of (inr (error_response e)) = [].
Proof. reflexivity. Qed.

(** One step of the hysteresis rule emits at most the event the phase
    allows, and moves to the phase that allows the other one. *)
Lemma hysteresis_alternates s prob n rest :
  alternates (phase (fst (hysteresis s prob n))) rest ->
  alternates (phase s)
    (status_of (inr (event_response (snd (hysteresis s prob n)))) ++ rest).
Proof.
  unfold hysteresis.
  destruct (phase s) eqn:Hph, (Qle_bool (threshold s) prob); simpl; auto.
  destruct (silence_reached s (silence_run_length s + n)); simpl; auto.
Qed.

Lemma hysteresis_silent_phase s prob n :
  status_of (inr (event_response (snd (hysteresis s prob n)))) = [] ->
  phase (fst (hysteresis s prob n)) = phase s.
Proof.
  unfold hysteresis.
  destruct (phase s) eqn:Hph, (Qle_bool (threshold s) prob); simpl; try done.
  destruct (silence_reached s (silence_run_length s + n)); simpl; done.
Qed.

Lemma session_for_insert_eq w k s calls :
  session_for {| vad_iterators := <[k := s]> (vad_iterators w);
                 scorer_calls := calls |} k = s.
Proof. unfold session_for; simpl. by rewrite lookup_insert_eq. Qed.

Lemma session_for_insert_ne w k k' s calls :
  k' <> k ->
  session_for {| vad_iterators := <[k' := s]> (vad_iterators w);
                 scorer_calls := calls |} k = session_for w k.
Proof. intros Hne. unfold session_for; simpl. by rewrite lookup_insert_ne. Qed.

Lemma session_for_insert_same w k k' calls :
  session_for {| vad_iterators := <[k' := session_for w k']> (vad_iterators w);
                 scorer_calls := calls |} k = session_for w k.
Proof.
  destruct (decide (k' = k)) as [->|Hne].
  - apply session_for_insert_eq.
  - by apply session_for_insert_ne.
Qed.

(** From any state, the events of a session alternate, beginning with
    the event its current phase allows. *)
Lemma session_events_alternate k calls :
  forall w, alternates (phase (session_for w k)) (session_events k calls w).
Proof.
  induction calls as [|[vad_model get_json] rest IH]; intros w; [exact I|].
  cbn [session_events].
  destruct (addressed get_json) as [[k' x]|] eqn:Ha.
  - destruct x as [|q x'].
    + rewrite (vad_detect_empty_chunk vad_model _ w k' Ha).
      cbn [fst snd]. rewrite status_of_error.
      replace ((if decide (fst <$> Some (k', []) = Some k) then [] else [])
               ++ session_events k rest (set_iterators <[k' := session_for w k']> w))
        with (session_events k rest (set_iterators <[k' := session_for w k']> w))
        by (case_decide; reflexivity).
      specialize (IH (set_iterators <[k' := session_for w k']> w)).
      unfold set_iterators in IH at 1.
      rewrite session_for_insert_same in IH. exact IH.
    + destruct (vad_model (q :: x')) as [e|prob] eqn:Hm.
      * rewrite (vad_detect_scorer_raises vad_model _ w k' (q :: x') e Ha); [|done|done].
        cbn [fst snd]. rewrite status_of_error.
        match goal with
        | |- alternates _ ((if ?c then [] else []) ++ session_events k rest ?w') =>
            replace ((if c then [] else []) ++ session_events k rest w')
              with (session_events k rest w') by (destruct c; reflexivity);
            specialize (IH w')
        end.
        rewrite session_for_insert_same in IH. exact IH.
      * rewrite (vad_detect_scored vad_model _ w k' (q :: x') prob Ha); [|done|done].
        cbn [fst snd].
        match goal with
        | |- alternates _ (_ ++ session_events k rest ?w') => specialize (IH w')
        end.
        case_decide as Hk.
        -- simpl in Hk. injection Hk as ->.
           rewrite session_for_insert_eq in IH.
           by apply hysteresis_alternates.
        -- assert (k' <> k) by (intros ->; by apply Hk).
           rewrite session_for_insert_ne in IH by done. exact IH.
  - destruct (vad_detect_unaddressed vad_model get_json w Ha) as [Hw _].
    rewrite Hw. cbn [fst]. case_decide; [done|]. apply IH.
Qed.

(** Strict alternation, in the words of the property: the first event is
    a start, and of two consecutive events one is a start and the other
    an end. *)
Lemma alternates_spelled ph events :
  alternates ph events ->
  (forall e, head events = Some e ->
             e = match ph with SILENCE => "start" | SPEECH => "end" end) /\
  (forall i a b, events !! i = Some a -> events !! S i = Some b ->
     (a = "start" /\ b = "end") \/ (a = "end" /\ b = "start")).
Proof.
  revert ph. induction events as [|e rest IH]; intros ph Halt.
  - split; intros; discriminate.
  - assert (Hrest : exists ph', alternates ph' rest /\
              e = match ph with SILENCE => "start" | SPEECH => "end" end /\
              ph' = match ph with SILENCE => SPEECH | SPEECH => SILENCE end).
    { destruct ph; simpl in Halt; destruct Halt; eauto. }
    destruct Hrest as (ph' & Hrest & He & Hph').
    destruct (IH ph' Hrest) as [Hhd Hadj].
    split.
    + intros e' [= <-]. exact He.
    + intros [|i] a b Ha Hb.
      * simpl in Ha. injection Ha as <-.
        assert (Hb' : head rest = Some b) by (destruct rest; exact Hb).
        apply Hhd in Hb'. subst ph'. destruct ph; subst; auto.
      * simpl in Ha, Hb. eapply Hadj; eauto.
Qed.

(** C1.  Over any sequence of [/vad] requests served from the state the
    module is loaded with, the non-null events answered for one session
    alternate strictly: they go start, end, start, end, ...; the first
    is a start, and two consecutive events are never both starts nor
    both ends. *)
Theorem vad_events_alternate (k : key) (calls : list (Scorer * result pyval)) :
  let events := session_events k calls initial in
  alternates SILENCE events /\
  (forall e, head events = Some e -> e = "start") /\
  (forall i a b, events !! i = Some a -> events !! S i = Some b ->
     (a = "start" /\ b = "end") \/ (a = "end" /\ b = "start")).
Proof.
  intros events.
  assert (Halt : alternates SILENCE events) by apply (session_events_alternate k calls initial).
  split; [exact Halt|]. exact (alternates_spelled SILENCE events Halt).
Qed.

(** ** What a request does to the table of sessions *)

Lemma vad_detect_sessions vad_model get_json w k x :
  addressed get_json = Some (k, x) ->
  exists s',
    vad_iterators (snd (vad_detect vad_model get_json w))
      = <[k := s']> (vad_iterators w) /\
    (s' = session_for w k \/
     exists prob, vad_model x = inr prob /\
       s' = fst (hysteresis (session_for w k) prob (Z.of_nat (length x)))).
Proof.
  intros Ha. destruct x as [|q x'].
  - rewrite (vad_detect_empty_chunk vad_model _ w k Ha).
    eexists. split; [reflexivity|]. by left.
  - destruct (vad_model (q :: x')) as [e|prob] eqn:Hm.
    + rewrite (vad_detect_scorer_raises vad_model _ w k _ e Ha); [|done|done].
      eexists. split; [reflexivity|]. by left.
    + rewrite (vad_detect_scored vad_model _ w k _ prob Ha); [|done|done].
      eexists. split; [reflexivity|]. right. by exists prob.
Qed.

Lemma reset_vad_sessions get_json w :
  vad_iterators (snd (reset_vad get_json w)) = vad_iterators w \/
  exists k s, reset_addressed get_json = Some k /\
    vad_iterators w !! k = Some s /\
    vad_iterators (snd (reset_vad get_json w))
      = <[k := reset_states s]> (vad_iterators w).
Proof.
  unfold reset_vad, reset_addressed. unfold_monad.
  destruct get_json as [e|data0]; simpl; [auto|].
  destruct (get (or_else data0 (PDict [])) "session_id" (PStr "default"))
    as [e|session_id]; simpl; [auto|].
  destruct (hash_key session_id) as [e|k]; simpl; [auto|].
  destruct (vad_iterators w !! k) as [s|] eqn:Hs; simpl; [|auto].
  right. exists k, s. auto.
Qed.

Lemma reset_vad_response get_json w k :
  reset_addressed get_json = Some k ->
  fst (reset_vad get_json w)
    = inr (respond (jsonify [("status", JVal (PStr "reset"))]) 200).
Proof.
  unfold reset_vad, reset_addressed. unfold_monad.
  destruct get_json as [e|data0]; simpl; [discriminate|].
  destruct (get (or_else data0 (PDict [])) "session_id" (PStr "default"))
    as [e|session_id]; simpl; [discriminate|].
  destruct (hash_key session_id) as [e|k']; simpl; [discriminate|].
  intros _. destruct (vad_iterators w !! k'); reflexivity.
Qed.

Lemma hysteresis_config s prob n :
  default_config s -> default_config (fst (hysteresis s prob n)).
Proof.
  unfold hysteresis, default_config.
  destruct (phase s), (Qle_bool (threshold s) prob); simpl; auto.
  destruct (silence_reached s (silence_run_length s + n)); simpl; auto.
Qed.

Lemma list_neq_snoc {A} (l : list A) (x : A) : l <> l ++ [x].
Proof.
  intros H. apply (f_equal length) in H. rewrite length_app in H. simpl in H. lia.
Qed.

(** ** States with the same sessions answer alike *)

Lemma session_for_insert w k s calls k' :
  session_for {| vad_iterators := <[k := s]> (vad_iterators w);
                 scorer_calls := calls |} k'
  = if decide (k = k') then s else session_for w k'.
Proof.
  case_decide as Hk.
  - subst k'. apply session_for_insert_eq.
  - by apply session_for_insert_ne.
Qed.

Lemma vad_detect_unaddressed_response vad_model get_json w1 w2 :
  addressed get_json = None ->
  fst (vad_detect vad_model get_json w1) = fst (vad_detect vad_model get_json w2).
Proof.
  unfold addressed, vad_detect, get_vad_iterator. unfold_monad. intros H.
  destruct get_json as [e|data]; simpl; [done|].
  destruct (contains "audio_data" data) as [e|[|]]; simpl; [done| |done].
  destruct (getitem data "audio_data") as [e|field]; simpl; [done|].
  destruct (b64decode field) as [e|audio_bytes]; simpl; [done|].
  destruct (frombuffer_int16 audio_bytes) as [e|audio_int16]; simpl; [done|].
  destruct (get data "session_id" (PStr "default")) as [e|session_id]; simpl; [done|].
  destruct (hash_key session_id) as [e|k']; simpl; [done|discriminate].
Qed.

Lemma reset_vad_addressed get_json w k :
  reset_addressed get_json = Some k ->
  fst (reset_vad get_json w)
    = inr (respond (jsonify [("status", JVal (PStr "reset"))]) 200) /\
  forall k', session_for (snd (reset_vad get_json w)) k'
             = if decide (k = k') then reset_states (session_for w k)
               else session_for w k'.
Proof.
  intros Hk. split; [by apply (reset_vad_response get_json w k)|].
  revert Hk. unfold reset_vad, reset_addressed. unfold_monad.
  destruct get_json as [e|data0]; simpl; [discriminate|].
  destruct (get (or_else data0 (PDict [])) "session_id" (PStr "default"))
    as [e|session_id]; simpl; [discriminate|].
  destruct (hash_key session_id) as [e|k0]; simpl; [discriminate|].
  intros [= ->] k'.
  destruct (vad_iterators w !! k) as [s|] eqn:Hs; simpl.
  - unfold set_iterators. rewrite session_for_insert.
    case_decide; [|done]. unfold session_for. by rewrite Hs.
  - case_decide as Hkk; [|done]. subst k'.
    unfold session_for. by rewrite Hs.
Qed.

Lemma reset_vad_unaddressed get_json w1 w2 :
  reset_addressed get_json = None ->
  snd (reset_vad get_json w1) = w1 /\
  fst (reset_vad get_json w1) = fst (reset_vad get_json w2).
Proof.
  unfold reset_vad, reset_addressed. unfold_monad.
  destruct get_json as [e|data0]; simpl; [done|].
  destruct (get (or_else data0 (PDict [])) "session_id" (PStr "default"))
    as [e|session_id]; simpl; [done|].
  destruct (hash_key session_id) as [e|k0]; simpl; [done|discriminate].
Qed.

Lemma same_sessions_serve c w1 w2 :
  same_sessions w1 w2 ->
  fst (serve c w1) = fst (serve c w2) /\
  same_sessions (snd (serve c w1)) (snd (serve c w2)).
Proof.
  intros Hsame. destruct c as [vad_model get_json|get_json]; simpl.
  - destruct (addressed get_json) as [[k x]|] eqn:Ha.
    + destruct x as [|q x'].
      * rewrite !(vad_detect_empty_chunk vad_model _ _ k Ha).
        split; [done|]. intros k'. unfold set_iterators; simpl.
        rewrite !session_for_insert, (Hsame k), (Hsame k'). done.
      * destruct (vad_model (q :: x')) as [e|prob] eqn:Hm.
        -- rewrite !(vad_detect_scorer_raises vad_model _ _ k _ e Ha) by done.
           split; [done|]. intros k'. simpl.
           rewrite !session_for_insert, (Hsame k), (Hsame k'). done.
        -- rewrite !(vad_detect_scored vad_model _ _ k _ prob Ha) by done.
           split; [by rewrite (Hsame k)|]. intros k'. simpl.
           rewrite !session_for_insert, (Hsame k), (Hsame k'). done.
    + split; [by apply vad_detect_unaddressed_response|].
      destruct (vad_detect_unaddressed vad_model get_json w1 Ha) as [-> _].
      destruct (vad_detect_unaddressed vad_model get_json w2 Ha) as [-> _]. done.
  - destruct (reset_addressed get_json) as [k|] eqn:Ha.
    + destruct (reset_vad_addressed get_json w1 k Ha) as [-> H1].
      destruct (reset_vad_addressed get_json w2 k Ha) as [-> H2].
      split; [done|]. intros k'. by rewrite H1, H2, (Hsame k), (Hsame k').
    + destruct (reset_vad_unaddressed get_json w1 w2 Ha) as [-> ->].
      destruct (reset_vad_unaddressed get_json w2 w1 Ha) as [-> _]. done.
Qed.

(** Whatever requests follow, such states answer them alike. *)
Lemma same_sessions_responses calls :
  forall w1 w2, same_sessions w1 w2 -> responses calls w1 = responses calls w2.
Proof.
  induction calls as [|c rest IH]; intros w1 w2 Hsame; [done|].
  destruct (same_sessions_serve c w1 w2 Hsame) as [Hr Hnext].
  simpl. rewrite Hr. f_equal. by apply IH.
Qed.

(** C3.  When a [/vad] request reaches the scorer and the scorer
    raises, the answer is the 500 error response carrying that
    exception, every session that existed keeps exactly the state it
    had, the phase, silence run and cursor of every session id are what
    they were before the call, and every later sequence of requests is
    answered as if the failed call had not been made. *)
Theorem vad_scorer_failure_keeps_sessions
    (vad_model : Scorer) (get_json : result pyval) (w : World) (x : list Q) (e : exn) :
  scorer_calls (snd (vad_detect vad_model get_json w)) = scorer_calls w ++ [x] ->
  vad_model x = inl e ->
  fst (vad_detect vad_model get_json w) = inr (error_response e) /\
  code (error_response e) = 500 /\
  (forall k s, vad_iterators w !! k = Some s ->
     vad_iterators (snd (vad_detect vad_model get_json w)) !! k = Some s) /\
  (forall k, session_state (snd (vad_detect vad_model get_json w)) k
             = session_state w k) /\
  (forall calls, responses calls (snd (vad_detect vad_model get_json w))
                 = responses calls w).
Proof.
  intros Hcalls Hm.
  destruct (addressed get_json) as [[k' x']|] eqn:Ha.
  - destruct x' as [|q x''].
    + rewrite (vad_detect_empty_chunk vad_model _ w k' Ha) in Hcalls.
      simpl in Hcalls. by apply list_neq_snoc in Hcalls.
    + destruct (vad_model (q :: x'')) as [e'|prob] eqn:Hm'.
      * rewrite (vad_detect_scorer_raises vad_model _ w k' _ e' Ha) in *; [|done..].
        simpl in Hcalls. apply app_inv_head in Hcalls. injection Hcalls as <-.
        rewrite Hm' in Hm. injection Hm as ->.
        cbn [fst snd vad_iterators].
        split; [done|]. split; [done|]. split; [|split].
        -- intros k s Hk. destruct (decide (k' = k)) as [->|Hne].
           ++ rewrite lookup_insert_eq. unfold session_for. by rewrite Hk.
           ++ by rewrite lookup_insert_ne.
        -- intros k. unfold session_state; simpl.
           destruct (decide (k' = k)) as [->|Hne].
           ++ rewrite lookup_insert_eq. unfold session_for.
              by destruct (vad_iterators w !! k).
           ++ by rewrite lookup_insert_ne.
        -- intros calls. apply same_sessions_responses. intros k.
           apply session_for_insert_same.
      * rewrite (vad_detect_scored vad_model _ w k' _ prob Ha) in Hcalls; [|done..].
        simpl in Hcalls. apply app_inv_head in Hcalls. injection Hcalls as <-.
        congruence.
  - destruct (vad_detect_unaddressed vad_model get_json w Ha) as [Hw _].
    rewrite Hw in Hcalls. by apply list_neq_snoc in Hcalls.
Qed.

(** C2, as the code has it.  When the [audio_data] field is present
    and [base64.b64decode] or [numpy.frombuffer] rejects it, the answer
    is the 500 error response carrying that exception, and the state is
    untouched: no session is created and the scorer is not asked. *)
Theorem vad_undecodable_audio_is_500
    (vad_model : Scorer) (data field : pyval) (e : exn) (w : World) :
  contains "audio_data" data = inr true ->
  getitem data "audio_data" = inr field ->
  decode_audio field = inl e ->
  vad_detect vad_model (inr data) w = (inr (error_response e), w) /\
  code (error_response e) = 500.
Proof.
  intros Hc Hg Hd. split; [|reflexivity].
  unfold vad_detect, decode_audio in *. unfold_monad.
  rewrite Hc; simpl. rewrite Hg.
  destruct (b64decode field) as [e'|audio_bytes]; simpl.
  - by injection Hd as ->.
  - by rewrite Hd.
Qed.

(** C10, as the code has it.  When [request.get_json()] returns
    [None] (a JSON null body, or an absent body on a Flask that returns
    [None] for it), [/vad] is answered 500, not 400: the membership
    test raises [TypeError] and the state is untouched; [/reset] with
    that body is answered 200 with status "reset".  When
    [request.get_json()] itself raises (an absent body on a Flask that
    rejects it), [/vad] and [/reset] are both answered with the 500
    response of that exception, and the state is untouched. *)
Theorem vad_body_null_or_absent (vad_model : Scorer) (w : World) :
  (vad_detect vad_model (inr PNone) w = (inr (error_response TypeError), w) /\
   code (error_response TypeError) = 500 /\
   code (error_response TypeError) <> 400 /\
   fst (reset_vad (inr PNone) w)
     = inr (respond (jsonify [("status", JVal (PStr "reset"))]) 200)) /\
  (forall e,
     vad_detect vad_model (inl e) w = (inr (error_response e), w) /\
     reset_vad (inl e) w = (inr (error_response e), w) /\
     code (error_response e) = 500).
Proof.
  split.
  - repeat split; try done.
    apply (reset_vad_response (inr PNone) w (KStr "default")). reflexivity.
  - intros e. repeat split.
Qed.

(** ** Reset *)

Lemma reset_states_idempotent s : reset_states (reset_states s) = reset_states s.
Proof. reflexivity. Qed.

(** C5.  Resetting twice in a row gives the state and the response of
    resetting once.  A request that names a session (any hashable id,
    or none at all) is answered with the success response, and when no
    session is stored under the id the state is left as it is. *)
Theorem reset_vad_idempotent (get_json : result pyval) (w : World) :
  reset_vad get_json (snd (reset_vad get_json w)) = reset_vad get_json w /\
  (forall k, reset_addressed get_json = Some k ->
     fst (reset_vad get_json w)
       = inr (respond (jsonify [("status", JVal (PStr "reset"))]) 200) /\
     (vad_iterators w !! k = None -> snd (reset_vad get_json w) = w)).
Proof.
  split.
  - unfold reset_vad. unfold_monad.
    destruct get_json as [e|data0]; simpl; [done|].
    destruct (get (or_else data0 (PDict [])) "session_id" (PStr "default"))
      as [e|session_id]; simpl; [done|].
    destruct (hash_key session_id) as [e|k]; simpl; [done|].
    destruct (vad_iterators w !! k) as [s|] eqn:Hs; simpl.
    + rewrite lookup_insert_eq. simpl. unfold set_iterators; simpl.
      by rewrite insert_insert_eq.
    + by rewrite Hs.
  - intros k Hk. split; [by apply (reset_vad_response get_json w k)|].
    intros Hnone. revert Hk. unfold reset_vad, reset_addressed. unfold_monad.
    destruct get_json as [e|data0]; simpl; [done|].
    destruct (get (or_else data0 (PDict [])) "session_id" (PStr "default"))
      as [e|session_id]; simpl; [done|].
    destruct (hash_key session_id) as [e|k']; simpl; [done|].
    intros [= ->]. by rewrite Hnone.
Qed.

(** ** Creation of sessions *)

Lemma serve_keeps_sessions c w k :
  is_Some (vad_iterators w !! k) ->
  is_Some (vad_iterators (snd (serve c w)) !! k).
Proof.
  intros Hk. destruct c as [vad_model get_json|get_json]; simpl.
  - destruct (addressed get_json) as [[k' x]|] eqn:Ha.
    + destruct (vad_detect_sessions vad_model get_json w k' x Ha) as (s' & -> & _).
      destruct (decide (k' = k)) as [->|Hne].
      * rewrite lookup_insert_eq. eauto.
      * by rewrite lookup_insert_ne.
    + destruct (vad_detect_unaddressed vad_model get_json w Ha) as [-> _]. done.
  - destruct (reset_vad_sessions get_json w) as [->|(k' & s & _ & Hs & ->)]; [done|].
    destruct (decide (k' = k)) as [->|Hne].
    + rewrite lookup_insert_eq. eauto.
    + by rewrite lookup_insert_ne.
Qed.

(** C6, as the code has it.  A reset never creates a session: the ids
    that have one are the same before and after.  A [/vad] request that
    fails before it addresses a session creates none.  A [/vad] request
    that addresses the id [k] leaves a session under [k] and touches no
    other id: the stored session if there was one, else one built with
    the configuration of the module, advanced by one step of the rule
    when the scorer answered.  No request removes a session. *)
Theorem sessions_created_by_vad_only :
  (forall get_json w,
     dom (vad_iterators (snd (reset_vad get_json w))) = dom (vad_iterators w)) /\
  (forall vad_model get_json w,
     addressed get_json = None ->
     vad_iterators (snd (vad_detect vad_model get_json w)) = vad_iterators w) /\
  (forall vad_model get_json w k x,
     addressed get_json = Some (k, x) ->
     let s0 := default (VADIterator THRESHOLD SAMPLING_RATE MIN_SILENCE_DURATION_MS)
                       (vad_iterators w !! k) in
     exists s',
       vad_iterators (snd (vad_detect vad_model get_json w))
         = <[k := s']> (vad_iterators w) /\
       (s' = s0 \/
        exists prob, vad_model x = inr prob /\
          s' = fst (hysteresis s0 prob (Z.of_nat (length x))))) /\
  (forall c w k,
     is_Some (vad_iterators w !! k) ->
     is_Some (vad_iterators (snd (serve c w)) !! k)).
Proof.
  split; [|split; [|split]].
  - intros get_json w.
    destruct (reset_vad_sessions get_json w) as [->|(k & s & _ & Hs & ->)]; [done|].
    rewrite dom_insert_L. apply elem_of_dom_2 in Hs.
    apply subseteq_union_1_L. by apply singleton_subseteq_l.
  - intros vad_model get_json w Ha.
    by destruct (vad_detect_unaddressed vad_model get_json w Ha) as [-> _].
  - intros vad_model get_json w k x Ha. exact (vad_detect_sessions vad_model get_json w k x Ha).
  - exact serve_keeps_sessions.
Qed.

(** ** The configuration of sessions *)

Lemma session_for_config w k :
  map_Forall (fun _ s => default_config s) (vad_iterators w) ->
  default_config (session_for w k).
Proof.
  intros Hall. unfold session_for.
  destruct (vad_iterators w !! k) as [s|] eqn:Hs; simpl.
  - exact (Hall k s Hs).
  - repeat split.
Qed.

Lemma serve_config c w :
  map_Forall (fun _ s => default_config s) (vad_iterators w) ->
  map_Forall (fun _ s => default_config s) (vad_iterators (snd (serve c w))).
Proof.
  intros Hall. destruct c as [vad_model get_json|get_json]; simpl.
  - destruct (addressed get_json) as [[k x]|] eqn:Ha.
    + destruct (vad_detect_sessions vad_model get_json w k x Ha)
        as (s' & -> & [->|(prob & _ & ->)]);
        apply map_Forall_insert_2; auto using session_for_config, hysteresis_config.
    + by destruct (vad_detect_unaddressed vad_model get_json w Ha) as [-> _].
  - destruct (reset_vad_sessions get_json w) as [->|(k & s & _ & Hs & ->)]; [done|].
    apply map_Forall_insert_2; [|done]. exact (Hall k s Hs).
Qed.

(** C9.  In every state the service can reach, every session has the
    configuration of the module: threshold 0.5, 16000 samples a second,
    500 ms of silence; no request sets another. *)
Theorem reachable_sessions_default_config (w : World) :
  reachable w ->
  map_Forall (fun _ s => threshold s = THRESHOLD /\
                         sampling_rate s = SAMPLING_RATE /\
                         min_silence_duration s = MIN_SILENCE_DURATION_MS)
             (vad_iterators w) /\
  THRESHOLD = (1 # 2)%Q /\ SAMPLING_RATE = 16000 /\ MIN_SILENCE_DURATION_MS = 500.
Proof.
  intros Hreach. split; [|done].
  induction Hreach as [|c w Hreach IH].
  - apply map_Forall_empty.
  - by apply serve_config.
Qed.

(** ** Normalisation of samples *)

Lemma int2float_sample_range (sample : Z) :
  is_int16 sample ->
  (-1 <= inject_Z sample / 32768 /\ inject_Z sample / 32768 < 1)%Q.
Proof.
  unfold is_int16, Qdiv, Qmult, Qinv, Qle, Qlt, inject_Z. simpl. lia.
Qed.

(** A sample and its quotient by 2^15 are binary32 values, with
    significand the sample itself: the conversion and the division of
    [int2float] round nothing. *)
Lemma int2float_exact (sample : Z) :
  is_int16 sample ->
  binary32 (inject_Z sample) /\ binary32 (inject_Z sample / 32768).
Proof.
  unfold is_int16. intros Hs. split.
  - exists sample, 0. split; [lia|]. split; [lia|].
    unfold Qeq, Qmult, inject_Z. simpl. lia.
  - exists sample, (-15). split; [lia|]. split; [lia|].
    unfold Qeq, Qdiv, Qmult, Qinv, inject_Z. simpl. lia.
Qed.

(** The samples [numpy.frombuffer] reads from bytes are 16-bit. *)
Lemma int16_of_bytes_range lo hi :
  0 <= lo < 256 -> 0 <= hi < 256 -> is_int16 (int16_of_bytes lo hi).
Proof.
  intros Hlo Hhi. unfold is_int16, int16_of_bytes.
  assert (Hu : 0 <= Z.lor lo (Z.shiftl hi 8) < 65536).
  { assert (Hsh : 0 <= Z.shiftl hi 8 < 65536)
      by (rewrite Z.shiftl_mul_pow2 by lia; lia).
    split; [apply Z.lor_nonneg; lia|].
    destruct (Z.eq_dec (Z.lor lo (Z.shiftl hi 8)) 0) as [->|Hnz]; [lia|].
    apply (Z.log2_lt_pow2 _ 16); [pose proof (Z.lor_nonneg lo (Z.shiftl hi 8)); lia|].
    rewrite Z.log2_lor by lia.
    apply Z.max_lub_lt.
    - destruct (Z.eq_dec lo 0) as [->|?]; [simpl; lia|].
      apply Z.log2_lt_pow2; lia.
    - destruct (Z.eq_dec (Z.shiftl hi 8) 0) as [->|?]; [simpl; lia|].
      apply Z.log2_lt_pow2; lia. }
  destruct (Z.lor lo (Z.shiftl hi 8) <? 32768) eqn:Hlt; lia.
Qed.

Lemma frombuffer_int16_range (b : list Z) :
  Forall (fun byte => 0 <= byte < 256) b ->
  forall samples, frombuffer_int16 b = inr samples -> Forall is_int16 samples.
Proof.
  assert (Hboth :
    (Forall (fun byte => 0 <= byte < 256) b ->
     forall samples, frombuffer_int16 b = inr samples -> Forall is_int16 samples) /\
    (forall lo, Forall (fun byte => 0 <= byte < 256) (lo :: b) ->
     forall samples, frombuffer_int16 (lo :: b) = inr samples ->
                     Forall is_int16 samples)); [|apply Hboth].
  induction b as [|hi rest [IH0 IH1]].
  - split.
    + intros _ samples [= <-]. constructor.
    + intros lo _ samples. discriminate.
  - split; [apply IH1|].
    intros lo Hb samples. simpl.
    destruct (frombuffer_int16 rest) as [e|samples'] eqn:Hrest; [discriminate|].
    intros [= <-].
    apply Forall_cons in Hb as [Hlo Hb]. apply Forall_cons in Hb as [Hhi Hb].
    constructor.
    + by apply int16_of_bytes_range.
    + by apply IH0.
Qed.

(** C7.  [int2float] divides each sample by 32768, whatever the samples
    are; every 16-bit sample lands in [-1, 1), exactly (the quotient is
    a binary32 value); -32768 goes to -1 and 32767 to 32767/32768,
    which is below 1. *)
Theorem int2float_range (sound : list Z) :
  Forall is_int16 sound ->
  int2float sound = map (fun sample => (inject_Z sample / 32768)%Q) sound /\
  Forall (fun x => (-1 <= x /\ x < 1)%Q) (int2float sound) /\
  Forall binary32 (int2float sound) /\
  (exists lo hi, int2float [-32768; 32767] = [lo; hi] /\
     (lo == -1)%Q /\ (hi == 32767 # 32768)%Q /\ (hi < 1)%Q).
Proof.
  intros Hsound. split; [reflexivity|]. split; [|split].
  - unfold int2float. apply Forall_map.
    eapply Forall_impl; [exact Hsound|]. apply int2float_sample_range.
  - unfold int2float. apply Forall_map.
    eapply Forall_impl; [exact Hsound|]. intros sample Hs.
    by apply int2float_exact.
  - eexists _, _. split; [reflexivity|]. repeat split.
Qed.

(** * Properties of the ASR service *)

Section AsrRequests.

Import AsrService.

Variable env : Env.
Variable files : list (string * FileStorage).
Variable file : FileStorage.
Hypothesis Hfile : files_lookup "file" files = Some file.
Hypothesis Hname : String.eqb (filename file) "" = false.
Hypothesis Hsave : save_fails env = None.

(** The staged file is still there when the model call raises: the
    [os.remove] of the handler is not reached. *)
Lemma recognize_model_failure (fs : gset string) (e : exn) :
  generate env (temp_path env) = inl e ->
  recognize env (inr files) fs = (inr (error_response e), {[temp_path env]} ∪ fs).
Proof.
  intros Hgen. unfold recognize, write_file. unfold_monad.
  rewrite Hfile, Hname, Hsave, Hgen. reflexivity.
Qed.

(** X14.  On the path without failure the staged file is removed, and
    the answer is 200 with the post-processed text and the language of
    the first result (["unknown"] when it names none). *)
Lemma recognize_success_removes (fs : gset string) res res0 raw text language :
  generate env (temp_path env) = inr res ->
  first_item res = inr res0 ->
  getitem res0 "text" = inr raw ->
  rich_transcription_postprocess env raw = inr text ->
  get res0 "language" (PStr "unknown") = inr language ->
  remove_refused env = None ->
  recognize env (inr files) fs =
    (inr (respond (jsonify [("text", JVal (PStr text)); ("language", JVal language)]) 200),
     ({[temp_path env]} ∪ fs) ∖ {[temp_path env]}).
Proof.
  intros Hgen Hres0 Hraw Htext Hlang Hrm.
  unfold recognize, write_file, os_remove. unfold_monad.
  rewrite Hfile, Hname, Hsave, Hgen, Hres0, Hraw, Htext, Hrm.
  rewrite decide_True by set_solver. by rewrite Hlang.
Qed.

(** X15.  A removal the system refuses is swallowed: the answer is the
    same 200 and the file stays. *)
Lemma recognize_remove_failure_suppressed
    (fs : gset string) res res0 raw text language e :
  generate env (temp_path env) = inr res ->
  first_item res = inr res0 ->
  getitem res0 "text" = inr raw ->
  rich_transcription_postprocess env raw = inr text ->
  get res0 "language" (PStr "unknown") = inr language ->
  remove_refused env = Some e ->
  recognize env (inr files) fs =
    (inr (respond (jsonify [("text", JVal (PStr text)); ("language", JVal language)]) 200),
     {[temp_path env]} ∪ fs).
Proof.
  intros Hgen Hres0 Hraw Htext Hlang Hrm.
  unfold recognize, write_file, os_remove. unfold_monad.
  rewrite Hfile, Hname, Hsave, Hgen, Hres0, Hraw, Htext, Hrm.
  rewrite decide_True by set_solver. by rewrite Hlang.
Qed.

End AsrRequests.

(** C4, at a request whose model call raises: the handler answers 500
    and the temporary file it staged is still in the temporary
    directory afterwards. *)
Theorem recognize_model_failure_keeps_temp_file :
  let env := {| AsrService.gettempdir := "/tmp";
                AsrService.uuid4_hex := "0123";
                AsrService.save_fails := None;
                AsrService.generate := fun _ => inl (External "model failure");
                AsrService.rich_transcription_postprocess := fun _ => inr "";
                AsrService.remove_refused := None |} in
  let files := inr [("file", {| AsrService.filename := "a.wav" |})] in
  fst (AsrService.recognize env files ∅)
    = inr (error_response (External "model failure")) /\
  code (error_response (External "model failure")) = 500 /\
  "/tmp/asr_0123.wav" ∈ snd (AsrService.recognize env files ∅).
Proof.
  intros env files.
  unfold files.
  rewrite (recognize_model_failure env
             [("file", {| AsrService.filename := "a.wav" |})]
             {| AsrService.filename := "a.wav" |}
             eq_refl eq_refl eq_refl ∅ (External "model failure") eq_refl).
  split; [reflexivity|]. split; [reflexivity|].
  cbn [snd]. apply elem_of_union_l. by apply elem_of_singleton.
Qed.

(** * No handler lets an exception out *)

Lemma try_except_answers {W} (body : M W Response) (w : W) :
  exists r, fst (try_except body (fun e => ret (error_response e)) w) = inr r /\
    (fst (body w) = inr r \/ exists e, fst (body w) = inl e /\ r = error_response e).
Proof.
  unfold try_except, ret. destruct (body w) as [[e|r] w']; simpl.
  - exists (error_response e). split; [reflexivity|]. right. by exists e.
  - exists r. split; [reflexivity|]. by left.
Qed.

(** Case analysis along a handler: split on a scrutinee that is not
    itself a case analysis, innermost first. *)
Ltac handler_cases :=
  repeat match goal with
         | |- context [match ?x with _ => _ end] =>
             lazymatch x with
             | context [match _ with _ => _ end] => fail
             | _ => destruct x eqn:?; simpl
             end
         end.





(** The closure the TTS handler leaves for the server swallows what
    [os.remove] raises. *)
Lemma tts_cleanup_never_raises env audio_file fs :
  fst (TtsService.cleanup env audio_file fs) = inr tt.
Proof.
  unfold TtsService.cleanup, os_remove. unfold_monad. handler_cases; reflexivity.
Qed.


(** * Concrete runs *)

Example b64decode_three_bytes : b64decode (PStr "AAAA") = inr [0; 0; 0].
Proof. reflexivity. Qed.

Example b64decode_padded : b64decode (PStr "/wA=") = inr [255; 0].
Proof. reflexivity. Qed.

Example b64decode_skips_foreign_characters :
  b64decode (PStr "/w A=!") = inr [255; 0].
Proof. reflexivity. Qed.

Example frombuffer_int16_signed :
  frombuffer_int16 [255; 255; 0; 128; 1; 0] = inr [-1; -32768; 1].
Proof. reflexivity. Qed.

(** The scenario of four chunks of 300 ms (4800 samples) with
    probabilities 0.8, 0.9, 0.1, 0.1: a start at 0 ms, nothing twice,
    and an end at 600 ms, where the silence began. *)
Example hysteresis_scenario :
  let s0 := VADIterator THRESHOLD SAMPLING_RATE MIN_SILENCE_DURATION_MS in
  let a := hysteresis s0 (8 # 10) 4800 in
  let b := hysteresis (fst a) (9 # 10) 4800 in
  let c := hysteresis (fst b) (1 # 10) 4800 in
  let d := hysteresis (fst c) (1 # 10) 4800 in
  [snd a; snd b; snd c; snd d] = [Some (EvStart 0); None; None; Some (EvEnd 600)].
Proof. reflexivity. Qed.

Lemma three_samples_addressed :
  addressed three_samples = Some (KStr "default", int2float [0; 0; 0]).
Proof. reflexivity. Qed.

Lemma vad_events_alternate_witness :
  let events := session_events (KStr "default")
                  [(speech_scorer, three_samples); (speech_scorer, three_samples)]
                  initial in
  events = ["start"] /\ alternates SILENCE events.
Proof.
  split; [reflexivity|].
  exact (proj1 (vad_events_alternate (KStr "default")
           [(speech_scorer, three_samples); (speech_scorer, three_samples)])).
Defined.

Lemma vad_scorer_failure_keeps_sessions_witness :
  let w := snd (vad_detect speech_scorer three_samples initial) in
  let w' := snd (vad_detect failing_scorer three_samples w) in
  scorer_calls w' = scorer_calls w ++ [int2float [0; 0; 0]] /\
  fst (vad_detect failing_scorer three_samples w)
    = inr (error_response (External "scorer failure")) /\
  session_state w' (KStr "default") = (SPEECH, 0, 3).
Proof.
  intros w w'.
  assert (Hcalls : scorer_calls w' = scorer_calls w ++ [int2float [0; 0; 0]])
    by reflexivity.
  destruct (vad_scorer_failure_keeps_sessions failing_scorer three_samples w
              (int2float [0; 0; 0]) (External "scorer failure") Hcalls eq_refl)
    as (Hr & _ & _ & Hstate).
  split; [exact Hcalls|]. split; [exact Hr|].
  unfold w'. rewrite (proj1 Hstate). reflexivity.
Defined.

(** C2 as stated fails: an [audio_data] that is not base64 ("A", one
    character of a quad) is answered 500, not 400. *)
Lemma vad_malformed_audio_not_400 :
  let data := PDict [("audio_data", PStr "A")] in
  contains "audio_data" data = inr true /\
  decode_audio (PStr "A") = inl BinasciiError /\
  exists r, fst (vad_detect speech_scorer (inr data) initial) = inr r /\
            code r = 500 /\ code r <> 400.
Proof.
  split; [reflexivity|]. split; [reflexivity|].
  exists (error_response BinasciiError). repeat split. discriminate.
Qed.

Lemma vad_undecodable_audio_is_500_witness :
  let data := PDict [("audio_data", PStr "AA=="); ("session_id", PStr "s1")] in
  decode_audio (PStr "AA==") = inl ValueError /\
  vad_detect speech_scorer (inr data) initial
    = (inr (error_response ValueError), initial).
Proof.
  split; [reflexivity|].
  exact (proj1 (vad_undecodable_audio_is_500 speech_scorer
           (PDict [("audio_data", PStr "AA=="); ("session_id", PStr "s1")])
           (PStr "AA==") ValueError initial eq_refl eq_refl eq_refl)).
Defined.

Lemma reset_vad_idempotent_witness :
  let get_json := inr (PDict [("session_id", PStr "a")]) in
  reset_addressed get_json = Some (KStr "a") /\
  vad_iterators initial !! KStr "a" = None /\
  snd (reset_vad get_json initial) = initial.
Proof.
  split; [reflexivity|]. split; [reflexivity|].
  exact (proj2 (proj2 (reset_vad_idempotent (inr (PDict [("session_id", PStr "a")]))
                         initial) (KStr "a") eq_refl) eq_refl).
Defined.

(** C6 as stated fails: the first reset that names an id creates no
    session for it. *)
Lemma reset_creates_no_session :
  let get_json := inr (PDict [("session_id", PStr "a")]) in
  fst (reset_vad get_json initial)
    = inr (respond (jsonify [("status", JVal (PStr "reset"))]) 200) /\
  vad_iterators (snd (reset_vad get_json initial)) !! KStr "a" = None.
Proof. split; reflexivity. Qed.

(** C10 as stated fails for an absent body that [request.get_json()]
    rejects: [/reset] is then answered 500, not 200. *)
Lemma reset_absent_body_not_200 :
  exists r,
    fst (reset_vad (inl (External "415 Unsupported Media Type")) initial) = inr r /\
    code r = 500 /\ code r <> 200 /\
    r <> respond (jsonify [("status", JVal (PStr "reset"))]) 200.
Proof.
  exists (error_response (External "415 Unsupported Media Type")).
  repeat split; discriminate.
Qed.

Lemma sessions_created_by_vad_only_witness :
  addressed three_samples = Some (KStr "default", int2float [0; 0; 0]) /\
  exists s',
    vad_iterators (snd (vad_detect speech_scorer three_samples initial))
      = <[KStr "default" := s']> (vad_iterators initial) /\
    sample_cursor s' = 3.
Proof.
  split; [reflexivity|].
  destruct (proj1 (proj2 (proj2 sessions_created_by_vad_only))
              speech_scorer three_samples initial (KStr "default")
              (int2float [0; 0; 0]) eq_refl)
    as (s' & Htbl & Hs').
  exists s'. split; [exact Htbl|].
  destruct Hs' as [->|(prob & Hprob & ->)].
  - apply (f_equal (fun m => m !! KStr "default")) in Htbl.
    rewrite lookup_insert_eq in Htbl. discriminate Htbl.
  - injection Hprob as <-. reflexivity.
Defined.

Lemma reachable_sessions_default_config_witness :
  let w := snd (serve (PostVad speech_scorer three_samples) initial) in
  reachable w /\
  map_Forall (fun _ s => threshold s = THRESHOLD /\
                         sampling_rate s = SAMPLING_RATE /\
                         min_silence_duration s = MIN_SILENCE_DURATION_MS)
             (vad_iterators w).
Proof.
  intros w.
  assert (Hw : reachable w) by (apply reachable_serve, reachable_initial).
  split; [exact Hw|]. exact (proj1 (reachable_sessions_default_config w Hw)).
Defined.

Lemma int2float_range_witness :
  Forall is_int16 [-32768; 0; 32767] /\
  Forall (fun x => (-1 <= x /\ x < 1)%Q) (int2float [-32768; 0; 32767]).
Proof.
  assert (H : Forall is_int16 [-32768; 0; 32767])
    by (repeat constructor; unfold is_int16; lia).
  split; [exact H|]. exact (proj1 (proj2 (int2float_range _ H))).
Defined.

(** * Further properties of the VAD service *)

Set Warnings "-clear-no-such-hyp".

(** ** Bodies that carry no audio *)

(** X1.  A body from which ["audio_data"] cannot be read (an object
    without the field, or a value that is not an object) never reaches
    decoding: it is answered 400 when the membership test says no, and
    the 500 response of a [TypeError] otherwise; the state is
    untouched. *)
Theorem vad_body_without_audio (vad_model : Scorer) (data : pyval) (w : World) :
  (forall field, getitem data "audio_data" <> inr field) ->
  vad_detect vad_model (inr data) w =
    (inr (match contains "audio_data" data with
          | inr false => missing_audio_data
          | _ => error_response TypeError
          end), w).
Proof.
  intros Hno. unfold vad_detect. unfold_monad.
  destruct data as [|b|n|s|l|d]; simpl; try reflexivity.
  - destruct (is_substring "audio_data" s); reflexivity.
  - destruct (existsb (is_str "audio_data") l); reflexivity.
  - simpl in Hno. destruct (dict_lookup "audio_data" d) as [field|] eqn:Hd.
    + by destruct (Hno field).
    + rewrite bool_decide_false by (intros [? ?]; discriminate). reflexivity.
Qed.

Lemma vad_body_without_audio_witness :
  vad_detect speech_scorer (inr (PStr "no audio_data here")) initial
    = (inr (error_response TypeError), initial) /\
  vad_detect speech_scorer (inr (PDict [("session_id", PStr "a")])) initial
    = (inr missing_audio_data, initial) /\
  vad_detect speech_scorer (inr (PList [])) initial
    = (inr missing_audio_data, initial).
Proof.
  split; [|split].
  - apply (vad_body_without_audio speech_scorer (PStr "no audio_data here") initial).
    intros field. discriminate.
  - apply (vad_body_without_audio speech_scorer (PDict [("session_id", PStr "a")]) initial).
    intros field. discriminate.
  - apply (vad_body_without_audio speech_scorer (PList []) initial).
    intros field. discriminate.
Defined.

(** ** The default session *)

Lemma dict_lookup_cons_ne k k' v d :
  String.eqb k k' = false -> dict_lookup k ((k', v) :: d) = dict_lookup k d.
Proof. intros Hne. simpl. rewrite Hne. by destruct (dict_lookup k d). Qed.

Lemma dict_lookup_cons_default k v d :
  dict_lookup k d = None -> dict_lookup k ((k, v) :: d) = Some v.
Proof. intros Hd. simpl. by rewrite Hd, String.eqb_refl. Qed.

(** X2.  A request that names no session is the request for the
    session ["default"]: for a body without ["session_id"], [/vad] and
    [/reset] answer and change the state exactly as for the same body
    with ["session_id": "default"] added. *)
Theorem default_session_id
    (vad_model : Scorer) (d : list (string * pyval)) (w : World) :
  dict_lookup "session_id" d = None ->
  vad_detect vad_model (inr (PDict (("session_id", PStr "default") :: d))) w
    = vad_detect vad_model (inr (PDict d)) w /\
  reset_vad (inr (PDict (("session_id", PStr "default") :: d))) w
    = reset_vad (inr (PDict d)) w.
Proof.
  intros Hd. split.
  - unfold vad_detect. unfold_monad. unfold contains, getitem, get.
    rewrite (dict_lookup_cons_ne "audio_data" "session_id") by reflexivity.
    rewrite (dict_lookup_cons_default "session_id") by done.
    rewrite Hd. reflexivity.
  - unfold reset_vad. unfold_monad. unfold or_else, get.
    destruct d as [|kv d']; [reflexivity|].
    cbn [truthy].
    rewrite (dict_lookup_cons_default "session_id") by done.
    rewrite Hd. reflexivity.
Qed.

Lemma default_session_id_witness :
  dict_lookup "session_id" [("audio_data", PStr "AAAAAAAA")] = None /\
  vad_detect speech_scorer
    (inr (PDict [("session_id", PStr "default"); ("audio_data", PStr "AAAAAAAA")]))
    initial
  = vad_detect speech_scorer three_samples initial.
Proof.
  split; [reflexivity|].
  exact (proj1 (default_session_id speech_scorer [("audio_data", PStr "AAAAAAAA")]
                  initial eq_refl)).
Defined.

(** ** Sessions do not interfere *)

Lemma serve_other_sessions c w k' :
  call_key c <> Some k' ->
  vad_iterators (snd (serve c w)) !! k' = vad_iterators w !! k'.
Proof.
  intros Hk. destruct c as [vad_model get_json|get_json]; simpl in *.
  - destruct (addressed get_json) as [[k x]|] eqn:Ha.
    + destruct (vad_detect_sessions vad_model get_json w k x Ha) as (s' & -> & _).
      apply lookup_insert_ne. intros ->. by apply Hk.
    + by destruct (vad_detect_unaddressed vad_model get_json w Ha) as [-> _].
  - destruct (reset_vad_sessions get_json w) as [->|(k & s & Ha & _ & ->)]; [done|].
    apply lookup_insert_ne. intros ->. by apply Hk.
Qed.

(** X3.  A request changes no session but the one it addresses: the
    entry of every other id is what it was, with its phase, silence run
    and cursor, and a request that addresses no session changes none. *)
Theorem other_sessions_untouched (c : Call) (w : World) (k' : key) :
  call_key c <> Some k' ->
  vad_iterators (snd (serve c w)) !! k' = vad_iterators w !! k' /\
  session_state (snd (serve c w)) k' = session_state w k'.
Proof.
  intros Hk. pose proof (serve_other_sessions c w k' Hk) as Hsame.
  split; [exact Hsame|].
  unfold session_state. by rewrite Hsame.
Qed.

Lemma other_sessions_untouched_witness :
  let w := snd (vad_detect speech_scorer three_samples initial) in
  let other := inr (PDict [("audio_data", PStr "AAAAAAAA"); ("session_id", PStr "b")]) in
  call_key (PostVad speech_scorer other) <> Some (KStr "default") /\
  vad_iterators (snd (serve (PostVad speech_scorer other) w)) !! KStr "default"
    = vad_iterators w !! KStr "default".
Proof.
  intros w other.
  assert (Hk : call_key (PostVad speech_scorer other) <> Some (KStr "default"))
    by discriminate.
  split; [exact Hk|].
  exact (proj1 (other_sessions_untouched (PostVad speech_scorer other) w
                  (KStr "default") Hk)).
Defined.

(** ** Growth of the table *)

Lemma serve_size c w :
  (size (vad_iterators (snd (serve c w)))
   <= size (vad_iterators w) + (if is_post_vad c then 1 else 0))%nat.
Proof.
  destruct c as [vad_model get_json|get_json]; simpl.
  - destruct (addressed get_json) as [[k x]|] eqn:Ha.
    + destruct (vad_detect_sessions vad_model get_json w k x Ha) as (s' & -> & _).
      rewrite map_size_insert. destruct (vad_iterators w !! k); simpl; lia.
    + destruct (vad_detect_unaddressed vad_model get_json w Ha) as [-> _]. lia.
  - destruct (reset_vad_sessions get_json w) as [->|(k & s & _ & Hs & ->)]; [lia|].
    rewrite map_size_insert, Hs. simpl. lia.
Qed.

(** X4.  The table gains at most one session per [/vad] request and
    none per [/reset]: after any sequence of requests it holds at most
    as many sessions more as there were [/vad] requests. *)
Theorem sessions_bounded_by_vad_requests (calls : list Call) (w : World) :
  (size (vad_iterators (run calls w))
   <= size (vad_iterators w) + length (List.filter is_post_vad calls))%nat.
Proof.
  revert w. induction calls as [|c rest IH]; intros w; simpl; [lia|].
  specialize (IH (snd (serve c w))). pose proof (serve_size c w) as Hc.
  destruct (is_post_vad c); simpl in *; lia.
Qed.

(** ** Session ids that cannot be keys *)

Lemma getitem_contains data k v :
  getitem data k = inr v -> contains k data = inr true.
Proof.
  destruct data as [|b|n|s|l|d]; simpl; try discriminate.
  destruct (dict_lookup k d) as [x|]; [|discriminate].
  intros _. by rewrite bool_decide_true by eauto.
Qed.

(** X5.  A session id that is a list or an object cannot be a key of
    the table.  [/reset] with such an id, and [/vad] with such an id
    and audio that decodes, both answer with the 500 response of the
    [TypeError] the lookup raises, and neither creates a session nor
    asks the scorer. *)
Theorem unhashable_session_id
    (vad_model : Scorer) (session_id : pyval) (e : exn) (w : World) :
  hash_key session_id = inl e ->
  e = TypeError /\
  (forall data0,
     get (or_else data0 (PDict [])) "session_id" (PStr "default") = inr session_id ->
     reset_vad (inr data0) w = (inr (error_response e), w)) /\
  (forall data field samples,
     getitem data "audio_data" = inr field ->
     decode_audio field = inr samples ->
     get data "session_id" (PStr "default") = inr session_id ->
     vad_detect vad_model (inr data) w = (inr (error_response e), w)).
Proof.
  intros Hk. split; [|split].
  - destruct session_id; simpl in Hk; congruence.
  - intros data0 Hs. unfold reset_vad. unfold_monad.
    cbn zeta. rewrite Hs; simpl. by rewrite Hk.
  - intros data field samples Hg Hd Hs.
    pose proof (getitem_contains _ _ _ Hg) as Hc.
    unfold vad_detect, get_vad_iterator, decode_audio in *. unfold_monad.
    rewrite Hc; simpl. rewrite Hg; simpl.
    destruct (b64decode field) as [e'|audio_bytes]; [discriminate|]. simpl.
    rewrite Hd; simpl. rewrite Hs; simpl. by rewrite Hk.
Qed.

Lemma unhashable_session_id_witness :
  let w := snd (vad_detect speech_scorer three_samples initial) in
  hash_key (PList []) = inl TypeError /\
  reset_vad (inr (PDict [("session_id", PList [])])) w
    = (inr (error_response TypeError), w) /\
  vad_detect speech_scorer
    (inr (PDict [("audio_data", PStr "AAAAAAAA"); ("session_id", PList [])])) w
    = (inr (error_response TypeError), w).
Proof.
  intros w.
  destruct (unhashable_session_id speech_scorer (PList []) TypeError w eq_refl)
    as (_ & Hreset & Hvad).
  split; [reflexivity|]. split.
  - exact (Hreset (PDict [("session_id", PList [])]) eq_refl).
  - exact (Hvad (PDict [("audio_data", PStr "AAAAAAAA"); ("session_id", PList [])])
             (PStr "AAAAAAAA") [0; 0; 0] eq_refl eq_refl eq_refl).
Defined.

(** ** What the scorer is given *)

Lemma store_byte_range v : is_byte (store_byte v).
Proof.
  unfold is_byte, store_byte. change 255 with (Z.ones 8).
  rewrite Z.land_ones by lia. apply Z.mod_pos_bound. lia.
Qed.

Lemma a2b_base64_bytes s :
  forall quad_pos leftchar pads bin_data bytes,
    Forall is_byte bin_data ->
    a2b_base64 s quad_pos leftchar pads bin_data = inr bytes ->
    Forall is_byte bytes.
Proof.
  induction s as [|c rest IH]; intros quad_pos leftchar pads bin_data bytes Hin; simpl.
  - destruct (quad_pos =? 0); [|discriminate]. by intros [= <-].
  - assert (Hsnoc : forall v, Forall is_byte (bin_data ++ [store_byte v])).
    { intros v. apply Forall_app. split; [done|].
      constructor; [apply store_byte_range|constructor]. }
    destruct (Ascii.eqb c BASE64_PAD).
    + destruct ((2 <=? quad_pos) && (4 <=? quad_pos + (pads + 1))).
      * by intros [= <-].
      * by apply IH.
    + destruct (b64_value c) as [v|]; [|by apply IH].
      destruct (quad_pos =? 0); [by apply IH|].
      destruct (quad_pos =? 1); [by apply IH|].
      destruct (quad_pos =? 2); by apply IH.
Qed.

Lemma decode_audio_int16 field samples :
  decode_audio field = inr samples -> Forall is_int16 samples.
Proof.
  unfold decode_audio, b64decode. intros Hd.
  destruct field as [|b|n|s|l|d]; try discriminate.
  destruct (is_ascii s); [|discriminate].
  destruct (a2b_base64 s 0 0 0 []) as [e|audio_bytes] eqn:Hb; [discriminate|].
  eapply frombuffer_int16_range; [|exact Hd].
  eapply a2b_base64_bytes; [|exact Hb]. constructor.
Qed.

Lemma addressed_chunk get_json k x :
  addressed get_json = Some (k, x) ->
  Forall (fun q => (-1 <= q /\ q < 1)%Q) x /\
  Forall binary32 x /\
  exists samples, Forall is_int16 samples /\ x = int2float samples.
Proof.
  intros Ha. apply addressed_inv in Ha
    as (data & field & audio_bytes & audio_int16 & session_id &
        -> & Hc & Hg & Hb & Hf & Hs & Hk & ->).
  assert (Hint : Forall is_int16 audio_int16).
  { apply (decode_audio_int16 field). unfold decode_audio. by rewrite Hb. }
  split; [|split].
  - unfold int2float. apply Forall_map.
    eapply Forall_impl; [exact Hint|]. apply int2float_sample_range.
  - unfold int2float. apply Forall_map.
    eapply Forall_impl; [exact Hint|]. intros sample Hsample.
    by apply int2float_exact.
  - by exists audio_int16.
Qed.

(** X6.  Whatever the request, the chunk [vad_detect] hands to the
    session holds only values of [-1, 1), each one the exact quotient of
    a 16-bit sample by 32768, one value per sample decoded from the
    audio field. *)
Theorem addressed_chunk_range (get_json : result pyval) (k : key) (x : list Q) :
  addressed get_json = Some (k, x) ->
  Forall (fun q => (-1 <= q /\ q < 1)%Q) x /\
  Forall binary32 x /\
  exists data field samples,
    get_json = inr data /\ getitem data "audio_data" = inr field /\
    decode_audio field = inr samples /\ Forall is_int16 samples /\
    x = int2float samples /\ length x = length samples.
Proof.
  intros Ha. destruct (addressed_chunk get_json k x Ha) as (Hrange & Hexact & _).
  split; [exact Hrange|]. split; [exact Hexact|].
  apply addressed_inv in Ha
    as (data & field & audio_bytes & audio_int16 & session_id &
        -> & Hc & Hg & Hb & Hf & Hs & Hk & ->).
  assert (Hd : decode_audio field = inr audio_int16)
    by (unfold decode_audio; by rewrite Hb).
  exists data, field, audio_int16.
  split; [done|]. split; [done|]. split; [done|].
  split; [by apply (decode_audio_int16 field)|].
  split; [done|]. unfold int2float. apply length_map.
Qed.

Lemma addressed_chunk_range_witness :
  let get_json := inr (PDict [("audio_data", PStr "/38AgA==")]) in
  addressed get_json = Some (KStr "default", int2float [32767; -32768]) /\
  Forall (fun q => (-1 <= q /\ q < 1)%Q) (int2float [32767; -32768]).
Proof.
  split; [reflexivity|].
  exact (proj1 (addressed_chunk_range (inr (PDict [("audio_data", PStr "/38AgA==")]))
                  (KStr "default") (int2float [32767; -32768]) eq_refl)).
Defined.

Lemma reset_vad_scorer_calls get_json w :
  scorer_calls (snd (reset_vad get_json w)) = scorer_calls w.
Proof.
  unfold reset_vad. unfold_monad.
  destruct get_json as [e|data0]; simpl; [done|].
  destruct (get (or_else data0 (PDict [])) "session_id" (PStr "default"))
    as [e|session_id]; simpl; [done|].
  destruct (hash_key session_id) as [e|k]; simpl; [done|].
  by destruct (vad_iterators w !! k).
Qed.

(** One request asks the scorer at most once, and only about the chunk
    it addresses. *)
Lemma serve_scorer_calls c w :
  scorer_calls (snd (serve c w)) = scorer_calls w \/
  exists vad_model get_json k x,
    c = PostVad vad_model get_json /\ addressed get_json = Some (k, x) /\
    scorer_calls (snd (serve c w)) = scorer_calls w ++ [x].
Proof.
  destruct c as [vad_model get_json|get_json]; simpl.
  - destruct (addressed get_json) as [[k x]|] eqn:Ha.
    + destruct x as [|q x'].
      * rewrite (vad_detect_empty_chunk vad_model _ w k Ha). by left.
      * right. exists vad_model, get_json, k, (q :: x').
        split; [done|]. split; [done|].
        destruct (vad_model (q :: x')) as [e|prob] eqn:Hm.
        -- by rewrite (vad_detect_scorer_raises vad_model _ w k _ e Ha).
        -- by rewrite (vad_detect_scored vad_model _ w k _ prob Ha).
    + left. by destruct (vad_detect_unaddressed vad_model get_json w Ha) as [-> _].
  - left. apply reset_vad_scorer_calls.
Qed.

(** X7.  In every state the service can reach, every chunk the scorer
    was ever asked about holds only values of [-1, 1). *)
Theorem scorer_inputs_in_range (w : World) :
  reachable w ->
  Forall (Forall (fun q => (-1 <= q /\ q < 1)%Q)) (scorer_calls w).
Proof.
  intros Hreach. induction Hreach as [|c w Hreach IH]; [constructor|].
  destruct (serve_scorer_calls c w)
    as [->|(vad_model & get_json & k & x & _ & Ha & ->)]; [done|].
  apply Forall_app. split; [done|].
  constructor; [|constructor]. by apply (addressed_chunk get_json k x).
Qed.

Lemma scorer_inputs_in_range_witness :
  let w := snd (serve (PostVad speech_scorer three_samples) initial) in
  reachable w /\
  scorer_calls w = [int2float [0; 0; 0]] /\
  Forall (Forall (fun q => (-1 <= q /\ q < 1)%Q)) (scorer_calls w).
Proof.
  intros w.
  assert (Hw : reachable w) by (apply reachable_serve, reachable_initial).
  split; [exact Hw|]. split; [reflexivity|].
  exact (scorer_inputs_in_range w Hw).
Defined.

(** ** Decoding *)

Lemma frombuffer_int16_length_both (b : list Z) :
  (Nat.even (length b) = true ->
   exists samples, frombuffer_int16 b = inr samples /\
                   length b = (2 * length samples)%nat) /\
  (Nat.even (length b) = false -> frombuffer_int16 b = inl ValueError) /\
  (forall lo, Nat.even (length b) = false ->
   exists samples, frombuffer_int16 (lo :: b) = inr samples /\
                   S (length b) = (2 * length samples)%nat) /\
  (forall lo, Nat.even (length b) = true ->
   frombuffer_int16 (lo :: b) = inl ValueError).
Proof.
  induction b as [|hi rest (IHe & IHo & IHe1 & IHo1)].
  - split; [|split; [|split]].
    + intros _. by exists [].
    + discriminate.
    + intros lo. discriminate.
    + intros lo _. reflexivity.
  - simpl length. rewrite Nat.even_succ. unfold Nat.odd.
    assert (Hneg : forall bo, negb (Nat.even (length rest)) = bo ->
                              Nat.even (length rest) = negb bo)
      by (intros bo <-; by rewrite negb_involutive).
    split; [|split; [|split]].
    + intros H. apply (IHe1 hi (Hneg _ H)).
    + intros H. apply (IHo1 hi (Hneg _ H)).
    + intros lo H. destruct (IHe (Hneg _ H)) as (samples & Hs & Hlen).
      exists (int16_of_bytes lo hi :: samples). simpl. rewrite Hs.
      split; [done|]. simpl. lia.
    + intros lo H. simpl. by rewrite (IHo (Hneg _ H)).
Qed.

(** X8.  [numpy.frombuffer] accepts a buffer exactly when its length is
    even, and then yields one sample per two bytes; a buffer of odd
    length is a [ValueError]. *)
Theorem frombuffer_int16_length (b : list Z) :
  (Nat.even (length b) = true ->
   exists samples, frombuffer_int16 b = inr samples /\
                   length b = (2 * length samples)%nat) /\
  (Nat.even (length b) = false -> frombuffer_int16 b = inl ValueError).
Proof.
  destruct (frombuffer_int16_length_both b) as (He & Ho & _). by split.
Qed.

Lemma frombuffer_int16_length_witness :
  Nat.even (length [1; 2; 3]) = false /\
  frombuffer_int16 [1; 2; 3] = inl ValueError /\
  Nat.even (length [1; 2; 3; 4]) = true /\
  exists samples, frombuffer_int16 [1; 2; 3; 4] = inr samples /\ length samples = 2%nat.
Proof.
  split; [reflexivity|].
  split; [exact (proj2 (frombuffer_int16_length [1; 2; 3]) eq_refl)|].
  split; [reflexivity|].
  destruct (proj1 (frombuffer_int16_length [1; 2; 3; 4]) eq_refl)
    as (samples & Hs & Hlen).
  exists samples. split; [exact Hs|]. simpl in Hlen. lia.
Defined.

Lemma a2b_base64_keep s :
  forall quad_pos leftchar pads bin_data,
    a2b_base64 (keep_base64 s) quad_pos leftchar pads bin_data
    = a2b_base64 s quad_pos leftchar pads bin_data.
Proof.
  induction s as [|c rest IH]; intros quad_pos leftchar pads bin_data; [done|].
  simpl. unfold is_base64_char.
  destruct (Ascii.eqb c BASE64_PAD) eqn:Hpad; simpl.
  - rewrite Hpad. by rewrite IH.
  - destruct (b64_value c) as [v|] eqn:Hv.
    + rewrite bool_decide_true by eauto. simpl. rewrite Hpad, Hv.
      by rewrite !IH.
    + rewrite bool_decide_false by (intros [? ?]; discriminate). apply IH.
Qed.

Lemma is_ascii_keep s : is_ascii s = true -> is_ascii (keep_base64 s) = true.
Proof.
  induction s as [|c rest IH]; [done|]. simpl.
  intros [Hc Hrest]%andb_true_iff.
  destruct (is_base64_char c); simpl; [rewrite Hc|]; by apply IH.
Qed.

(** X9.  [base64.b64decode] ignores every character that is neither of
    the alphabet nor the pad: an ASCII string decodes, or fails, as the
    string left when those characters are removed; so does the audio
    field as a whole. *)
Theorem b64decode_ignores_foreign_characters (s : string) :
  is_ascii s = true ->
  b64decode (PStr (keep_base64 s)) = b64decode (PStr s) /\
  decode_audio (PStr (keep_base64 s)) = decode_audio (PStr s).
Proof.
  intros Hs.
  assert (Hb : b64decode (PStr (keep_base64 s)) = b64decode (PStr s)).
  { unfold b64decode. rewrite Hs, (is_ascii_keep s Hs). apply a2b_base64_keep. }
  split; [exact Hb|]. unfold decode_audio. by rewrite Hb.
Qed.

Lemma b64decode_ignores_foreign_characters_witness :
  keep_base64 "AAAA  AA.AA" = "AAAAAAAA" /\
  decode_audio (PStr "AAAA  AA.AA") = inr [0; 0; 0].
Proof.
  split; [reflexivity|].
  rewrite <- (proj2 (b64decode_ignores_foreign_characters "AAAA  AA.AA" eq_refl)).
  reflexivity.
Defined.

(** ** What a 200 means *)

(** X10.  [vad_detect] answers 200 only when the request addressed a
    session and the scorer answered for its chunk; the body then has a
    null status and nothing else, or the status "start" or "end" and a
    timestamp, and the scorer was asked exactly once. *)
Theorem vad_200_means_scored
    (vad_model : Scorer) (get_json : result pyval) (w : World) (r : Response) :
  fst (vad_detect vad_model get_json w) = inr r ->
  code r = 200 ->
  exists k x prob,
    addressed get_json = Some (k, x) /\ vad_model x = inr prob /\
    scorer_calls (snd (vad_detect vad_model get_json w)) = scorer_calls w ++ [x] /\
    (body r = jsonify [("status", JVal PNone)] \/
     exists t, body r = jsonify [("status", JVal (PStr "start")); ("timestamp", JVal (PInt t))] \/
               body r = jsonify [("status", JVal (PStr "end")); ("timestamp", JVal (PInt t))]).
Proof.
  intros Hr Hcode.
  destruct (addressed get_json) as [[k x]|] eqn:Ha.
  - destruct x as [|q x'].
    + rewrite (vad_detect_empty_chunk vad_model _ w k Ha) in Hr.
      injection Hr as <-. discriminate.
    + destruct (vad_model (q :: x')) as [e|prob] eqn:Hm.
      * rewrite (vad_detect_scorer_raises vad_model _ w k _ e Ha) in Hr by done.
        injection Hr as <-. discriminate.
      * rewrite (vad_detect_scored vad_model _ w k _ prob Ha) in * by done.
        injection Hr as <-. exists k, (q :: x'), prob.
        split; [done|]. split; [done|]. split; [done|].
        destruct (snd (hysteresis _ _ _)) as [[t|t]|]; simpl; eauto.
  - destruct (vad_detect_unaddressed vad_model get_json w Ha)
      as [_ (r' & Hr' & [H4|H5])]; rewrite Hr' in Hr; injection Hr as <-; lia.
Qed.

Lemma vad_200_means_scored_witness :
  exists r, fst (vad_detect speech_scorer three_samples initial) = inr r /\
    code r = 200 /\
    scorer_calls (snd (vad_detect speech_scorer three_samples initial))
      = [int2float [0; 0; 0]].
Proof.
  exists (respond (jsonify [("status", JVal (PStr "start")); ("timestamp", JVal (PInt 0))]) 200).
  split; [reflexivity|]. split; [reflexivity|].
  destruct (vad_200_means_scored speech_scorer three_samples initial _ eq_refl eq_refl)
    as (k & x & prob & Ha & _ & Hcalls & _).
  rewrite Hcalls. injection Ha as _ <-. reflexivity.
Defined.

(** * Further properties of the ASR service *)

(** X11.  A request without a ["file"] part, or whose file has an empty
    name, is answered 400 before anything is staged: the temporary
    directory is as it was. *)
Theorem recognize_rejects_before_staging
    (env : AsrService.Env) (files : list (string * AsrService.FileStorage))
    (fs : gset string) :
  (forall file, AsrService.files_lookup "file" files = Some file ->
                AsrService.filename file = "") ->
  exists r, AsrService.recognize env (inr files) fs = (inr r, fs) /\ code r = 400.
Proof.
  intros Hfile. unfold AsrService.recognize. unfold_monad.
  destruct (AsrService.files_lookup "file" files) as [file|]; [|eauto].
  rewrite (Hfile file eq_refl). simpl. eauto.
Qed.

Lemma recognize_rejects_before_staging_witness :
  let env := {| AsrService.gettempdir := "/tmp";
                AsrService.uuid4_hex := "0123";
                AsrService.save_fails := None;
                AsrService.generate := fun _ => inr [];
                AsrService.rich_transcription_postprocess := fun _ => inr "";
                AsrService.remove_refused := None |} in
  exists r, AsrService.recognize env
              (inr [("audio", {| AsrService.filename := "a.wav" |});
                    ("file", {| AsrService.filename := "" |})]) ∅ = (inr r, ∅) /\
            code r = 400.
Proof.
  intros env.
  apply (recognize_rejects_before_staging env
           [("audio", {| AsrService.filename := "a.wav" |});
            ("file", {| AsrService.filename := "" |})] ∅).
  intros file [= <-]. reflexivity.
Defined.

(** X12.  [recognize] touches no file but the one it stages: every
    other path exists afterwards exactly if it existed before, whatever
    the request and whatever fails. *)
Theorem recognize_touches_only_its_file
    (env : AsrService.Env)
    (request_files : result (list (string * AsrService.FileStorage)))
    (fs : gset string) (p : string) :
  p <> AsrService.temp_path env ->
  (p ∈ snd (AsrService.recognize env request_files fs) <-> p ∈ fs).
Proof.
  intros Hp.
  unfold AsrService.recognize, write_file, os_remove. unfold_monad.
  handler_cases; set_solver.
Qed.

Lemma recognize_touches_only_its_file_witness :
  let env := {| AsrService.gettempdir := "/tmp";
                AsrService.uuid4_hex := "0123";
                AsrService.save_fails := None;
                AsrService.generate := fun _ => inl (External "model failure");
                AsrService.rich_transcription_postprocess := fun _ => inr "";
                AsrService.remove_refused := None |} in
  let request_files := inr [("file", {| AsrService.filename := "a.wav" |})] in
  "/tmp/asr_0123.wav" ∈ snd (AsrService.recognize env request_files {["/tmp/other"]}) /\
  "/tmp/other" ∈ snd (AsrService.recognize env request_files {["/tmp/other"]}) /\
  "/tmp/none" ∉ snd (AsrService.recognize env request_files {["/tmp/other"]}).
Proof.
  intros env request_files.
  split; [|split].
  - unfold request_files.
    rewrite (recognize_model_failure env
               [("file", {| AsrService.filename := "a.wav" |})]
               {| AsrService.filename := "a.wav" |}
               eq_refl eq_refl eq_refl _ (External "model failure") eq_refl).
    cbn [snd]. apply elem_of_union_l. by apply elem_of_singleton.
  - apply (recognize_touches_only_its_file env request_files {["/tmp/other"]} "/tmp/other");
      [discriminate|]. by apply elem_of_singleton.
  - intros Hin.
    apply (recognize_touches_only_its_file env request_files {["/tmp/other"]} "/tmp/none")
      in Hin; [|discriminate].
    apply elem_of_singleton in Hin. discriminate.
Defined.

(** X13.  Once the upload is staged, the status tells where the file
    is: after a 500 it is still in the temporary directory, after a 200
    it is gone unless the system refused the removal. *)
Theorem recognize_staged_file_fate
    (env : AsrService.Env) (files : list (string * AsrService.FileStorage))
    (file : AsrService.FileStorage) (fs : gset string) (r : Response) :
  AsrService.files_lookup "file" files = Some file ->
  String.eqb (AsrService.filename file) "" = false ->
  AsrService.save_fails env = None ->
  fst (AsrService.recognize env (inr files) fs) = inr r ->
  (code r = 200 \/ code r = 500) /\
  (code r = 500 ->
   AsrService.temp_path env ∈ snd (AsrService.recognize env (inr files) fs)) /\
  (code r = 200 -> AsrService.remove_refused env = None ->
   AsrService.temp_path env ∉ snd (AsrService.recognize env (inr files) fs)).
Proof.
  intros Hfile Hname Hsave.
  unfold AsrService.recognize, write_file, os_remove. unfold_monad.
  rewrite Hfile, Hname, Hsave. simpl.
  handler_cases; intros [= <-]; simpl;
    try match goal with
        | Hg : getitem ?v _ = inr _, Hl : get ?v _ _ = inl _ |- _ =>
            destruct v; discriminate
        end;
    (split; [auto|]); (split; [intros; try discriminate; set_solver|]);
    intros; try discriminate; set_solver.
Qed.

Lemma recognize_staged_file_fate_witness :
  let env := {| AsrService.gettempdir := "/tmp";
                AsrService.uuid4_hex := "0123";
                AsrService.save_fails := None;
                AsrService.generate := fun _ => inr [];
                AsrService.rich_transcription_postprocess := fun _ => inr "";
                AsrService.remove_refused := None |} in
  let files := [("file", {| AsrService.filename := "a.wav" |})] in
  fst (AsrService.recognize env (inr files) ∅) = inr (error_response IndexError) /\
  "/tmp/asr_0123.wav" ∈ snd (AsrService.recognize env (inr files) ∅).
Proof.
  intros env files. split; [reflexivity|].
  exact (proj1 (proj2 (recognize_staged_file_fate env files
           {| AsrService.filename := "a.wav" |} ∅ (error_response IndexError)
           eq_refl eq_refl eq_refl eq_refl)) eq_refl).
Defined.

Lemma recognize_success_removes_witness :
  let env := {| AsrService.gettempdir := "/tmp";
                AsrService.uuid4_hex := "0123";
                AsrService.save_fails := None;
                AsrService.generate := fun _ => inr [PDict [("text", PStr "<|en|>hi")]];
                AsrService.rich_transcription_postprocess := fun _ => inr "hi";
                AsrService.remove_refused := None |} in
  let files := [("file", {| AsrService.filename := "a.wav" |})] in
  AsrService.recognize env (inr files) ∅ =
    (inr (respond (jsonify [("text", JVal (PStr "hi"));
                            ("language", JVal (PStr "unknown"))]) 200),
     ({["/tmp/asr_0123.wav"]} ∪ ∅) ∖ {["/tmp/asr_0123.wav"]}).
Proof.
  intros env files.
  exact (recognize_success_removes env files {| AsrService.filename := "a.wav" |}
           eq_refl eq_refl eq_refl ∅
           [PDict [("text", PStr "<|en|>hi")]] (PDict [("text", PStr "<|en|>hi")])
           (PStr "<|en|>hi") "hi" (PStr "unknown")
           eq_refl eq_refl eq_refl eq_refl eq_refl eq_refl).
Defined.

Lemma recognize_remove_failure_suppressed_witness :
  let env := {| AsrService.gettempdir := "/tmp";
                AsrService.uuid4_hex := "0123";
                AsrService.save_fails := None;
                AsrService.generate :=
                  fun _ => inr [PDict [("text", PStr "hi"); ("language", PStr "en")]];
                AsrService.rich_transcription_postprocess := fun _ => inr "hi";
                AsrService.remove_refused := Some (External "PermissionError") |} in
  let files := [("file", {| AsrService.filename := "a.wav" |})] in
  AsrService.recognize env (inr files) ∅ =
    (inr (respond (jsonify [("text", JVal (PStr "hi"));
                            ("language", JVal (PStr "en"))]) 200),
     {["/tmp/asr_0123.wav"]} ∪ ∅).
Proof.
  intros env files.
  exact (recognize_remove_failure_suppressed env files
           {| AsrService.filename := "a.wav" |}
           eq_refl eq_refl eq_refl ∅
           [PDict [("text", PStr "hi"); ("language", PStr "en")]]
           (PDict [("text", PStr "hi"); ("language", PStr "en")])
           (PStr "hi") "hi" (PStr "en") (External "PermissionError")
           eq_refl eq_refl eq_refl eq_refl eq_refl eq_refl).
Defined.

(** * Properties of the TTS service *)

Lemma lstrip_nil chars : lstrip chars = [] <-> forallb is_space_char chars = true.
Proof.
  induction chars as [|c rest IH]; simpl; [done|].
  destruct (is_space_char c); simpl; [exact IH|]. split; discriminate.
Qed.

Lemma lstrip_blank chars :
  forallb is_space_char (lstrip chars) = true -> lstrip chars = [].
Proof.
  induction chars as [|c rest IH]; simpl; [done|].
  destruct (is_space_char c) eqn:Hc; [exact IH|].
  simpl. rewrite Hc. discriminate.
Qed.

Lemma forallb_rev {A} (f : A -> bool) l : forallb f (rev l) = forallb f l.
Proof.
  induction l as [|x rest IH]; [done|].
  simpl. rewrite forallb_app, IH. simpl. rewrite andb_true_r. apply andb_comm.
Qed.

(** No character of a string is empty, so a stripped string is empty
    only when no character is left. *)
Lemma utf8_chars_nonempty l : Forall (fun char => char <> []) (utf8_chars l).
Proof.
  induction l as [l IH] using (induction_ltof1 _ (@length ascii)).
  unfold ltof in IH.
  destruct l as [|a rest]; [constructor|]. cbn [utf8_chars].
  destruct (utf8_length a) as [|[|[|[|[|n]]]]];
    try (constructor; [done|apply IH; simpl; lia]).
  - destruct rest as [|b rest2]; constructor; try done; apply IH; simpl; lia.
  - destruct rest as [|b [|c rest3]]; constructor; try done; apply IH; simpl; lia.
  - destruct rest as [|b [|c [|d rest4]]]; constructor; try done; apply IH; simpl; lia.
Qed.

Lemma lstrip_nonempty chars :
  Forall (fun char : list ascii => char <> []) chars ->
  Forall (fun char : list ascii => char <> []) (lstrip chars).
Proof.
  induction 1 as [|c rest Hc Hrest IH]; simpl; [constructor|].
  destruct (is_space_char c); [exact IH|by constructor].
Qed.

Lemma concat_nonempty_nil (chars : list (list ascii)) :
  Forall (fun char => char <> []) chars -> concat chars = [] -> chars = [].
Proof.
  destruct 1 as [|c rest Hc _]; [done|]. simpl.
  destruct c; [done|discriminate].
Qed.

(** [strip] leaves nothing exactly of the strings of whitespace. *)
Lemma strip_empty s : strip s = "" <-> is_blank s = true.
Proof.
  unfold strip, is_blank.
  pose proof (utf8_chars_nonempty (list_ascii_of_string s)) as Hne.
  set (chars := utf8_chars (list_ascii_of_string s)) in *.
  split.
  - intros H.
    assert (Hcat : concat (rev (lstrip (rev (lstrip chars)))) = []).
    { destruct (concat (rev (lstrip (rev (lstrip chars))))); [done|discriminate]. }
    apply concat_nonempty_nil in Hcat.
    + apply (f_equal (@rev (list ascii))) in Hcat. rewrite rev_involutive in Hcat.
      simpl in Hcat. apply lstrip_nil in Hcat. rewrite forallb_rev in Hcat.
      apply lstrip_blank in Hcat. by apply lstrip_nil.
    + apply Forall_rev, lstrip_nonempty, Forall_rev, lstrip_nonempty, Hne.
  - intros H. apply lstrip_nil in H. by rewrite H.
Qed.

Example is_blank_unicode : is_blank "     　	" = true.
Proof. reflexivity. Qed.

Example is_blank_zero_width_space : is_blank "​" = false.
Proof. reflexivity. Qed.

Example strip_unicode : strip "　 héllo 缺  " = "héllo 缺".
Proof. reflexivity. Qed.

Lemma flask_send_file_written path fs :
  TtsService.flask_send_file path ({[path]} ∪ fs) = (inr (send_file path), {[path]} ∪ fs).
Proof.
  unfold TtsService.flask_send_file. rewrite decide_True by set_solver. done.
Qed.

(** X16.  For a text that is a string, [text_to_speech] answers 400
    without writing anything when the text is empty or made of
    whitespace characters only (those of [str.isspace], ASCII or not).
    For any other text it runs the synthesis: it answers 200 with the
    file just written when the synthesis succeeds, and with the 500
    response of the exception when the synthesis raises. *)
Theorem tts_string_text
    (env : TtsService.Env) (data voice : pyval) (s : string) (fs : gset string) :
  getitem data "text" = inr (PStr s) ->
  get data "voice" (PStr (TtsService.DEFAULT_VOICE env)) = inr voice ->
  (is_blank s = true ->
   TtsService.text_to_speech env (inr data) fs
     = (inr (respond (jsonify [("error", JVal (PStr "文本为空"))]) 400), fs)) /\
  (is_blank s = false ->
   (TtsService.communicate_fails env (PStr s) voice = None ->
    TtsService.text_to_speech env (inr data) fs
      = (inr (respond (send_file (TtsService.output_path env)) 200),
         {[TtsService.output_path env]} ∪ fs)) /\
   (forall e, TtsService.communicate_fails env (PStr s) voice = Some e ->
    fst (TtsService.text_to_speech env (inr data) fs) = inr (error_response e))).
Proof.
  intros Hg Hv. pose proof (getitem_contains _ _ _ Hg) as Hc.
  unfold TtsService.text_to_speech, TtsService.generate_tts, write_file. unfold_monad.
  rewrite Hc; simpl. rewrite Hg, Hv; simpl.
  split.
  - intros Hblank. apply strip_empty in Hblank. rewrite Hblank. reflexivity.
  - intros Hblank.
    assert (Hne : String.eqb (strip s) "" = false).
    { apply String.eqb_neq. intros Hs. apply strip_empty in Hs. congruence. }
    rewrite Hne. simpl. split.
    + intros ->. fold (TtsService.output_path env).
      by rewrite flask_send_file_written.
    + intros e ->. reflexivity.
Qed.

Lemma tts_string_text_witness :
  let env := {| TtsService.DEFAULT_VOICE := "zh-CN-XiaoxiaoNeural";
                TtsService.gettempdir := "/tmp";
                TtsService.uuid4_hex := "89ab";
                TtsService.communicate_fails := fun _ _ => None;
                TtsService.remove_refused := None |} in
  is_blank " 　 " = true /\
  TtsService.text_to_speech env (inr (PDict [("text", PStr " 　 ")])) ∅
    = (inr (respond (jsonify [("error", JVal (PStr "文本为空"))]) 400), ∅) /\
  is_blank " hello " = false /\
  TtsService.text_to_speech env (inr (PDict [("text", PStr " hello ")])) ∅
    = (inr (respond (send_file "/tmp/tts_89ab.wav") 200), {["/tmp/tts_89ab.wav"]} ∪ ∅).
Proof.
  intros env. split; [reflexivity|]. split; [|split; [reflexivity|]].
  - exact (proj1 (tts_string_text env (PDict [("text", PStr " 　 ")])
                    (PStr "zh-CN-XiaoxiaoNeural") " 　 " ∅ eq_refl eq_refl) eq_refl).
  - exact (proj1 (proj2 (tts_string_text env (PDict [("text", PStr " hello ")])
                          (PStr "zh-CN-XiaoxiaoNeural") " hello " ∅ eq_refl eq_refl)
                    eq_refl) eq_refl).
Defined.

(** X17.  A ["text"] that is not a string (a number, a list, null, ...)
    is answered with the 500 response of an [AttributeError], and
    nothing is written. *)
Theorem tts_text_not_a_string
    (env : TtsService.Env) (data text : pyval) (fs : gset string) :
  getitem data "text" = inr text ->
  (forall s, text <> PStr s) ->
  TtsService.text_to_speech env (inr data) fs
    = (inr (error_response AttributeError), fs).
Proof.
  intros Hg Hns. pose proof (getitem_contains _ _ _ Hg) as Hc.
  assert (Hget : exists voice,
            get data "voice" (PStr (TtsService.DEFAULT_VOICE env)) = inr voice).
  { destruct data; simpl in Hg; try discriminate. simpl. eauto. }
  destruct Hget as [voice Hv].
  unfold TtsService.text_to_speech. unfold_monad.
  rewrite Hc; simpl. rewrite Hg, Hv; simpl.
  destruct text as [|b|n|s|l|d]; try reflexivity. by destruct (Hns s).
Qed.

Lemma tts_text_not_a_string_witness :
  let env := {| TtsService.DEFAULT_VOICE := "zh-CN-XiaoxiaoNeural";
                TtsService.gettempdir := "/tmp";
                TtsService.uuid4_hex := "89ab";
                TtsService.communicate_fails := fun _ _ => None;
                TtsService.remove_refused := None |} in
  TtsService.text_to_speech env (inr (PDict [("text", PInt 42)])) ∅
    = (inr (error_response AttributeError), ∅).
Proof.
  intros env.
  apply (tts_text_not_a_string env (PDict [("text", PInt 42)]) (PInt 42) ∅ eq_refl).
  intros s. discriminate.
Defined.

(** X18.  A request that names no voice is the request for the default
    voice: a body without ["voice"] is served exactly as the same body
    with ["voice"] set to [DEFAULT_VOICE]. *)
Theorem tts_default_voice
    (env : TtsService.Env) (d : list (string * pyval)) (fs : gset string) :
  dict_lookup "voice" d = None ->
  TtsService.text_to_speech env
    (inr (PDict (("voice", PStr (TtsService.DEFAULT_VOICE env)) :: d))) fs
  = TtsService.text_to_speech env (inr (PDict d)) fs.
Proof.
  intros Hd. unfold TtsService.text_to_speech. unfold_monad.
  unfold contains, getitem, get.
  rewrite (dict_lookup_cons_ne "text" "voice") by reflexivity.
  rewrite (dict_lookup_cons_default "voice") by done.
  rewrite Hd. reflexivity.
Qed.

Lemma tts_default_voice_witness :
  let env := {| TtsService.DEFAULT_VOICE := "zh-CN-XiaoxiaoNeural";
                TtsService.gettempdir := "/tmp";
                TtsService.uuid4_hex := "89ab";
                TtsService.communicate_fails :=
                  fun _ voice => match voice with
                                 | PStr "zh-CN-XiaoxiaoNeural" => None
                                 | _ => Some ValueError
                                 end;
                TtsService.remove_refused := None |} in
  TtsService.text_to_speech env
    (inr (PDict [("voice", PStr "zh-CN-XiaoxiaoNeural"); ("text", PStr "hi")])) ∅
  = TtsService.text_to_speech env (inr (PDict [("text", PStr "hi")])) ∅.
Proof.
  intros env. exact (tts_default_voice env [("text", PStr "hi")] ∅ eq_refl).
Defined.

(** X19.  After a served request the closure left for the server puts
    the temporary directory back: when the output path was free before
    the request and the system does not refuse the removal, running
    [cleanup] on the file of a 200 response leaves exactly the files
    there were; and [cleanup] never raises. *)
Theorem tts_cleanup_restores
    (env : TtsService.Env) (get_json : result pyval) (fs : gset string) (path : string) :
  fst (TtsService.text_to_speech env get_json fs) = inr (respond (send_file path) 200) ->
  path = TtsService.output_path env /\
  fst (TtsService.cleanup env path (snd (TtsService.text_to_speech env get_json fs)))
    = inr tt /\
  (path ∉ fs -> TtsService.remove_refused env = None ->
   snd (TtsService.cleanup env path (snd (TtsService.text_to_speech env get_json fs)))
     = fs).
Proof.
  unfold TtsService.text_to_speech, TtsService.generate_tts, TtsService.cleanup,
    TtsService.flask_send_file, TtsService.output_path, write_file, os_remove.
  unfold_monad.
  handler_cases; intros [= <-]; repeat split; try (intros; congruence);
    intros; set_solver.
Qed.

Lemma tts_cleanup_restores_witness :
  let env := {| TtsService.DEFAULT_VOICE := "zh-CN-XiaoxiaoNeural";
                TtsService.gettempdir := "/tmp";
                TtsService.uuid4_hex := "89ab";
                TtsService.communicate_fails := fun _ _ => None;
                TtsService.remove_refused := None |} in
  let get_json := inr (PDict [("text", PStr "hello")]) in
  fst (TtsService.text_to_speech env get_json {["/tmp/kept"]})
    = inr (respond (send_file "/tmp/tts_89ab.wav") 200) /\
  ("/tmp/tts_89ab.wav" ∉ ({["/tmp/kept"]} : gset string)) /\
  snd (TtsService.cleanup env "/tmp/tts_89ab.wav"
         (snd (TtsService.text_to_speech env get_json {["/tmp/kept"]})))
    = {["/tmp/kept"]}.
Proof.
  intros env get_json.
  assert (Hfree : ("/tmp/tts_89ab.wav" ∉ ({["/tmp/kept"]} : gset string))).
  { intros Hin. apply elem_of_singleton in Hin. discriminate. }
  assert (Hr : fst (TtsService.text_to_speech env get_json {["/tmp/kept"]})
               = inr (respond (send_file "/tmp/tts_89ab.wav") 200)).
  { unfold get_json, TtsService.text_to_speech, TtsService.generate_tts, write_file.
    unfold_monad. simpl. by rewrite flask_send_file_written. }
  split; [exact Hr|]. split; [exact Hfree|].
  exact (proj2 (proj2 (tts_cleanup_restores env get_json {["/tmp/kept"]}
                         "/tmp/tts_89ab.wav" Hr)) Hfree eq_refl).
Defined.

(** X20.  [text_to_speech] and its [cleanup] touch no file but the
    output file: every other path exists afterwards exactly if it
    existed before. *)
Theorem tts_touches_only_its_file
    (env : TtsService.Env) (get_json : result pyval) (fs : gset string) (p : string) :
  p <> TtsService.output_path env ->
  (p ∈ snd (TtsService.text_to_speech env get_json fs) <-> p ∈ fs) /\
  (p ∈ snd (TtsService.cleanup env (TtsService.output_path env) fs) <-> p ∈ fs).
Proof.
  intros Hp. split.
  - unfold TtsService.text_to_speech, TtsService.generate_tts,
      TtsService.flask_send_file, TtsService.output_path, write_file in *.
    unfold_monad. handler_cases; set_solver.
  - unfold TtsService.cleanup, os_remove. unfold_monad.
    handler_cases; set_solver.
Qed.

Lemma tts_touches_only_its_file_witness :
  let env := {| TtsService.DEFAULT_VOICE := "zh-CN-XiaoxiaoNeural";
                TtsService.gettempdir := "/tmp";
                TtsService.uuid4_hex := "89ab";
                TtsService.communicate_fails := fun _ _ => None;
                TtsService.remove_refused := None |} in
  "/tmp/kept" <> TtsService.output_path env /\
  "/tmp/kept" ∈ snd (TtsService.text_to_speech env
                       (inr (PDict [("text", PStr "hello")])) {["/tmp/kept"]}).
Proof.
  intros env.
  assert (Hp : "/tmp/kept" <> TtsService.output_path env) by discriminate.
  split; [exact Hp|].
  apply (proj1 (tts_touches_only_its_file env (inr (PDict [("text", PStr "hello")]))
                  {["/tmp/kept"]} "/tmp/kept" Hp)).
  by apply elem_of_singleton.
Defined.

(** * Further properties of reset and of sessions *)

(** X21.  [/reset] with a body that is not an object: a falsy body
    (null, false, 0, the empty string or list) is the body [{}], the
    reset of the default session; any other is answered with the 500
    response of an [AttributeError] and resets nothing. *)
Theorem reset_body_not_an_object (data0 : pyval) (w : World) :
  (forall d, data0 <> PDict d) ->
  reset_vad (inr data0) w =
    if truthy data0 then (inr (error_response AttributeError), w)
    else reset_vad (inr (PDict [])) w.
Proof.
  intros Hnd. unfold reset_vad. unfold_monad. unfold or_else.
  destruct (truthy data0) eqn:Ht; [|reflexivity].
  destruct data0 as [|b|n|s|l|d]; try reflexivity. by destruct (Hnd d).
Qed.

Lemma reset_body_not_an_object_witness :
  reset_vad (inr (PInt 7)) initial = (inr (error_response AttributeError), initial) /\
  reset_vad (inr (PList [])) initial = reset_vad (inr (PDict [])) initial.
Proof.
  split.
  - apply (reset_body_not_an_object (PInt 7) initial). intros d. discriminate.
  - apply (reset_body_not_an_object (PList []) initial). intros d. discriminate.
Defined.

Lemma reachable_config w :
  reachable w -> map_Forall (fun _ s => default_config s) (vad_iterators w).
Proof.
  induction 1 as [|c w Hreach IH]; [apply map_Forall_empty|by apply serve_config].
Qed.

(** X22.  In a state the service can reach, resetting a session is
    forgetting it: every later sequence of requests is answered as if
    the id had never been seen. *)
Theorem reset_is_forgetting
    (get_json : result pyval) (k : key) (w : World) (calls : list Call) :
  reachable w ->
  reset_addressed get_json = Some k ->
  responses calls (snd (reset_vad get_json w)) = responses calls (forget k w).
Proof.
  intros Hreach Hk. apply same_sessions_responses. intros k'.
  destruct (reset_vad_addressed get_json w k Hk) as [_ ->].
  unfold forget, session_for at 3; simpl.
  case_decide as Hkk.
  - subst k'. rewrite lookup_delete_eq. simpl.
    destruct (session_for_config w k (reachable_config w Hreach)) as (Ht & Hr & Hm).
    unfold reset_states, VADIterator. by rewrite Ht, Hr, Hm.
  - by rewrite lookup_delete_ne.
Qed.

Lemma reset_is_forgetting_witness :
  let w := snd (serve (PostVad speech_scorer three_samples) initial) in
  reachable w /\
  responses [PostVad speech_scorer three_samples] w
    = [inr (respond (jsonify [("status", JVal PNone)]) 200)] /\
  responses [PostVad speech_scorer three_samples] (snd (reset_vad (inr PNone) w))
    = responses [PostVad speech_scorer three_samples] (forget (KStr "default") w).
Proof.
  intros w.
  assert (Hw : reachable w) by (apply reachable_serve, reachable_initial).
  split; [exact Hw|]. split; [reflexivity|].
  exact (reset_is_forgetting (inr PNone) (KStr "default") w
           [PostVad speech_scorer three_samples] Hw eq_refl).
Defined.

(** ** Sessions are independent *)

Lemma vad_detect_other_session vad_model get_json w k :
  fst <$> addressed get_json <> Some k ->
  session_for (snd (vad_detect vad_model get_json w)) k = session_for w k.
Proof.
  intros Hk. unfold session_for.
  pose proof (serve_other_sessions (PostVad vad_model get_json) w k Hk) as Hs.
  simpl in Hs. by rewrite Hs.
Qed.

Lemma vad_detect_own_session vad_model get_json w1 w2 k x :
  addressed get_json = Some (k, x) ->
  session_for w1 k = session_for w2 k ->
  fst (vad_detect vad_model get_json w1) = fst (vad_detect vad_model get_json w2) /\
  session_for (snd (vad_detect vad_model get_json w1)) k
    = session_for (snd (vad_detect vad_model get_json w2)) k.
Proof.
  intros Ha Hs. destruct x as [|q x'].
  - rewrite !(vad_detect_empty_chunk vad_model _ _ k Ha).
    unfold set_iterators; simpl. by rewrite !session_for_insert_eq.
  - destruct (vad_model (q :: x')) as [e|prob] eqn:Hm.
    + rewrite !(vad_detect_scorer_raises vad_model _ _ k _ e Ha) by done.
      simpl. by rewrite !session_for_insert_eq.
    + rewrite !(vad_detect_scored vad_model _ _ k _ prob Ha) by done.
      simpl. by rewrite !session_for_insert_eq, Hs.
Qed.

(** The events of a session depend on the state through its own
    session only. *)
Lemma session_events_own_state k calls :
  forall w1 w2, session_for w1 k = session_for w2 k ->
                session_events k calls w1 = session_events k calls w2.
Proof.
  induction calls as [|[vad_model get_json] rest IH]; intros w1 w2 Hs; [done|].
  cbn [session_events]. case_decide as Hk.
  - destruct (addressed get_json) as [[k' x]|] eqn:Ha; [|discriminate].
    simpl in Hk. injection Hk as ->.
    destruct (vad_detect_own_session vad_model get_json w1 w2 k x Ha Hs) as [-> Hnext].
    f_equal. by apply IH.
  - simpl. apply IH. by rewrite !vad_detect_other_session.
Qed.

(** X23.  As far as the table goes, a session does not depend on the
    others: with the answer of the scorer to each request held fixed,
    the events a session emits over a sequence of [/vad] requests are
    the events it emits over its own requests alone.  What the scorer
    answers is an input of each request here; whether the model behind
    it answers differently after other sessions' chunks is not said. *)
Theorem session_events_own_requests
    (k : key) (calls : list (Scorer * result pyval)) (w : World) :
  session_events k calls w = session_events k (List.filter (addresses k) calls) w.
Proof.
  revert w. induction calls as [|[vad_model get_json] rest IH]; intros w; [done|].
  cbn [List.filter]. unfold addresses at 1. cbn [snd].
  case_bool_decide as Hk.
  - cbn [session_events]. by rewrite IH.
  - cbn [session_events]. rewrite decide_False by done. simpl.
    rewrite IH. apply session_events_own_state.
    by apply vad_detect_other_session.
Qed.

(** ** Unpadded base64 *)

Lemma b64_value_ascii c v : b64_value c = Some v -> (N_of_ascii c <? 128)%N = true.
Proof.
  unfold b64_value. intros H. apply N.ltb_lt.
  destruct (N.lt_ge_cases (N_of_ascii c) 128) as [|Hge]; [done|exfalso].
  assert (Hz : 128 <= Z.of_N (N_of_ascii c)) by lia.
  repeat match type of H with
         | (if ?b then _ else _) = _ => destruct b eqn:?
         end; try discriminate; lia.
Qed.

Lemma b64_value_not_pad c v : b64_value c = Some v -> Ascii.eqb c BASE64_PAD = false.
Proof.
  intros H. destruct (Ascii.eqb c BASE64_PAD) eqn:Hc; [|done].
  apply Ascii.eqb_eq in Hc. subst c. discriminate H.
Qed.

Lemma is_alphabet_ascii s : is_alphabet s = true -> is_ascii s = true.
Proof.
  unfold is_alphabet. induction s as [|c rest IH]; [done|]. simpl.
  intros [Hc Hrest]%andb_true_iff. apply bool_decide_eq_true in Hc as [v Hv].
  rewrite (b64_value_ascii c v Hv). by apply IH.
Qed.

Lemma a2b_base64_alphabet s :
  is_alphabet s = true ->
  forall quad_pos leftchar pads bin_data,
    0 <= quad_pos <= 3 ->
    let n := Z.of_nat (String.length s) in
    ((quad_pos + n) mod 4 <> 0 /\
     a2b_base64 s quad_pos leftchar pads bin_data = inl BinasciiError) \/
    ((quad_pos + n) mod 4 = 0 /\
     exists bytes, a2b_base64 s quad_pos leftchar pads bin_data = inr bytes /\
       4 * (Z.of_nat (length bytes) - Z.of_nat (length bin_data))
       = 3 * (quad_pos + n) - 4 * quad_bytes quad_pos).
Proof.
  unfold is_alphabet.
  induction s as [|c rest IH]; intros Hs quad_pos leftchar pads bin_data Hq.
  - cbn [String.length a2b_base64]. cbv zeta.
    assert (Hcases : quad_pos = 0 \/ quad_pos = 1 \/ quad_pos = 2 \/ quad_pos = 3) by lia.
    destruct Hcases as [-> | [-> | [-> | ->]]]; simpl.
    + right. split; [done|]. exists bin_data. split; [done|].
      unfold quad_bytes. simpl. lia.
    + left. by split.
    + left. by split.
    + left. by split.
  - simpl in Hs. apply andb_true_iff in Hs as [Hc Hrest].
    apply bool_decide_eq_true in Hc as [v Hv].
    cbn [String.length]. cbv zeta. rewrite Nat2Z.inj_succ.
    cbn [a2b_base64]. rewrite (b64_value_not_pad c v Hv), Hv.
    assert (Hcases : quad_pos = 0 \/ quad_pos = 1 \/ quad_pos = 2 \/ quad_pos = 3) by lia.
    destruct Hcases as [-> | [-> | [-> | ->]]]; cbn [Z.eqb Pos.eqb].
    + destruct (IH Hrest 1 v 0 bin_data ltac:(lia)) as [[Hm Hr]|[Hm (bytes & Hr & Hlen)]].
      * left. split; [|done].
        replace (0 + Z.succ (Z.of_nat (String.length rest)))
          with (1 + Z.of_nat (String.length rest)) by lia. done.
      * right. split.
        -- replace (0 + Z.succ (Z.of_nat (String.length rest)))
             with (1 + Z.of_nat (String.length rest)) by lia. done.
        -- exists bytes. split; [done|]. unfold quad_bytes in *. simpl in *. lia.
    + destruct (IH Hrest 2 (Z.land v 15) 0
                  (bin_data ++ [store_byte (Z.lor (Z.shiftl leftchar 2) (Z.shiftr v 4))])
                  ltac:(lia)) as [[Hm Hr]|[Hm (bytes & Hr & Hlen)]].
      * left. split; [|done].
        replace (1 + Z.succ (Z.of_nat (String.length rest)))
          with (2 + Z.of_nat (String.length rest)) by lia. done.
      * right. split.
        -- replace (1 + Z.succ (Z.of_nat (String.length rest)))
             with (2 + Z.of_nat (String.length rest)) by lia. done.
        -- exists bytes. split; [done|].
           rewrite length_app in Hlen. unfold quad_bytes in *. simpl in *. lia.
    + destruct (IH Hrest 3 (Z.land v 3) 0
                  (bin_data ++ [store_byte (Z.lor (Z.shiftl leftchar 4) (Z.shiftr v 2))])
                  ltac:(lia)) as [[Hm Hr]|[Hm (bytes & Hr & Hlen)]].
      * left. split; [|done].
        replace (2 + Z.succ (Z.of_nat (String.length rest)))
          with (3 + Z.of_nat (String.length rest)) by lia. done.
      * right. split.
        -- replace (2 + Z.succ (Z.of_nat (String.length rest)))
             with (3 + Z.of_nat (String.length rest)) by lia. done.
        -- exists bytes. split; [done|].
           rewrite length_app in Hlen. unfold quad_bytes in *. simpl in *. lia.
    + destruct (IH Hrest 0 0 0
                  (bin_data ++ [store_byte (Z.lor (Z.shiftl leftchar 6) v)])
                  ltac:(lia)) as [[Hm Hr]|[Hm (bytes & Hr & Hlen)]].
      * left. split; [|done].
        replace (3 + Z.succ (Z.of_nat (String.length rest)))
          with (0 + Z.of_nat (String.length rest) + 1 * 4) by lia.
        by rewrite Z.mod_add by lia.
      * right. split.
        -- replace (3 + Z.succ (Z.of_nat (String.length rest)))
             with (0 + Z.of_nat (String.length rest) + 1 * 4) by lia.
           by rewrite Z.mod_add by lia.
        -- exists bytes. split; [done|].
           rewrite length_app in Hlen. unfold quad_bytes in *. simpl in *. lia.
Qed.

(** X24.  A string over the base64 alphabet with no pad decodes exactly
    when its length is a multiple of 4, to three bytes for every four
    characters; any other length is a [binascii.Error].  As audio it
    gives three samples for every eight characters, and is accepted
    only when its length is a multiple of 8. *)
Theorem unpadded_base64_length (s : string) :
  is_alphabet s = true ->
  let n := Z.of_nat (String.length s) in
  (n mod 4 <> 0 -> b64decode (PStr s) = inl BinasciiError) /\
  (n mod 4 = 0 ->
   exists bytes, b64decode (PStr s) = inr bytes /\ 4 * Z.of_nat (length bytes) = 3 * n) /\
  (forall samples, decode_audio (PStr s) = inr samples ->
     n mod 8 = 0 /\ 8 * Z.of_nat (length samples) = 3 * n).
Proof.
  intros Hs n.
  assert (Hb : b64decode (PStr s) = a2b_base64 s 0 0 0 [])
    by (unfold b64decode; by rewrite (is_alphabet_ascii s Hs)).
  pose proof (a2b_base64_alphabet s Hs 0 0 0 [] ltac:(lia)) as Ha.
  cbv zeta in Ha. fold n in Ha. rewrite Z.add_0_l in Ha.
  split; [|split].
  - intros Hn. rewrite Hb. destruct Ha as [[_ Hr]|[Hm _]]; [done|contradiction].
  - intros Hn. rewrite Hb. destruct Ha as [[Hm _]|[_ (bytes & Hr & Hlen)]]; [contradiction|].
    exists bytes. split; [done|]. unfold quad_bytes in Hlen. simpl in Hlen. lia.
  - intros samples. unfold decode_audio. rewrite Hb.
    destruct Ha as [[_ ->]|[Hm (bytes & -> & Hlen)]]; [discriminate|].
    intros Hf. unfold quad_bytes in Hlen. simpl in Hlen.
    destruct (Nat.even (length bytes)) eqn:Heven.
    + destruct (proj1 (frombuffer_int16_length_both bytes) Heven)
        as (samples' & Hs' & Hlen').
      rewrite Hs' in Hf. injection Hf as <-. clearbody n.
      assert (Heq : 8 * Z.of_nat (length samples') = 3 * n) by lia.
      split; [|exact Heq].
      replace n with ((3 * Z.of_nat (length samples') - n) * 8) by lia.
      apply Z.mod_mul. lia.
    + rewrite (proj1 (proj2 (frombuffer_int16_length_both bytes)) Heven) in Hf.
      discriminate.
Qed.

Lemma unpadded_base64_length_witness :
  is_alphabet "AAAAAAAA" = true /\
  decode_audio (PStr "AAAAAAAA") = inr [0; 0; 0] /\
  8 * Z.of_nat (length [0; 0; 0]) = 3 * Z.of_nat (String.length "AAAAAAAA") /\
  b64decode (PStr "AAAAA") = inl BinasciiError.
Proof.
  split; [reflexivity|]. split; [reflexivity|]. split.
  - exact (proj2 (proj2 (proj2 (unpadded_base64_length "AAAAAAAA" eq_refl))
                    [0; 0; 0] eq_refl)).
  - apply (proj1 (unpadded_base64_length "AAAAA" eq_refl)). discriminate.
Defined.
